(** * messagegears migrator: a shallow embedding of [migrator.py]

    The script copies templates, audiences and database connections from a
    source system to a destination system over a paginated REST API.  This
    file embeds the functions of [migrator.py] that talk to the API and
    that validate the configuration, and proves the properties of the
    pagination loop, of the connection reconciler and of the migration
    driver.

    Conventions of the embedding.
    - A Python value decoded from JSON (or read from the configuration) is a
      [value]; a Python [dict] with string keys is a [gmap string value],
      whose equality is the order-insensitive equality of Python dicts.
    - A Python [str] is a [string]: a sequence of characters with code
      points below 256.
    - An f-string is kept as the list of its pieces ([fstring]): its
      literal parts and the values it interpolates.
    - Code that can raise returns [exn + A]; code that sends requests or
      prints runs in [io], which reads the replies of the remote systems
      from a script and records every request and every printed line. *)

From Stdlib Require Import ZArith String Ascii List Bool.
From stdpp Require Import gmap strings list fin_maps.

Set Warnings "-register-all".
Open Scope string_scope.
Open Scope list_scope.

(** ** Python values *)

Inductive value : Type :=
| VNone
| VBool (b : bool)
| VInt (z : Z)
| VStr (s : string)
| VList (l : list value)
| VDict (d : gmap string value).

(** Python exceptions that the embedded code can raise.  [KeyError]
    carries its argument: the missing key, or the message that
    [validate_config] builds. *)
Inductive exn : Type :=
| KeyError (what : string)
| TypeError
| AttributeError.

(** [bool(v)]: the truth value that [if v:] and [if not v:] test. *)
Definition truthy (v : value) : bool :=
  match v with
  | VNone => false
  | VBool b => b
  | VInt z => negb (z =? 0)%Z
  | VStr s => negb (String.eqb s "")
  | VList l => match l with [] => false | _ :: _ => true end
  | VDict d => negb (bool_decide (dom d = ∅))
  end.

(** ** The error monad of pure code *)

Definition ebind {A B} (m : exn + A) (k : A → exn + B) : exn + B :=
  match m with
  | inl e => inl e
  | inr a => k a
  end.

Notation "'check' x <- m ; k" := (ebind m (λ x, k))
  (at level 10, x name, m at level 100, k at level 200,
   format "'[v' 'check'  x  <-  m ; '/' k ']'").

(** [v[key]] for a string key. *)
Definition py_getitem (v : value) (key : string) : exn + value :=
  match v with
  | VDict d =>
      match d !! key with
      | Some x => inr x
      | None => inl (KeyError key)
      end
  | _ => inl TypeError
  end.

(** [v.get(key, dflt)]: only a dict has the method. *)
Definition py_get (v : value) (key : string) (dflt : value) : exn + value :=
  match v with
  | VDict d => inr (default dflt (d !! key))
  | _ => inl AttributeError
  end.

(** [s in t] on strings: [s] occurs in [t]. *)
Fixpoint is_substring (s t : string) : bool :=
  String.prefix s t ||
  match t with
  | EmptyString => false
  | String _ t' => is_substring s t'
  end.

(** [key in v] for a string key: membership in the keys of a dict, in the
    elements of a list, substring test on a string. *)
Definition py_in (key : string) (v : value) : exn + bool :=
  match v with
  | VDict d => inr (bool_decide (key ∈ dom d))
  | VList l =>
      inr (existsb (λ x, match x with VStr s => String.eqb s key | _ => false end) l)
  | VStr s => inr (is_substring key s)
  | _ => inl TypeError
  end.

(** [str.lower()] on one character: the upper-case letters A-Z and the
    upper-case letters of Latin-1 (192-222 but the multiplication sign 215)
    move up by 32. *)
Definition lower_char (c : ascii) : ascii :=
  let n := N_of_ascii c in
  if ((65 <=? n) && (n <=? 90) || (192 <=? n) && (n <=? 222) && negb (n =? 215))%N
  then ascii_of_N (n + 32)
  else c.

Fixpoint lower (s : string) : string :=
  match s with
  | EmptyString => EmptyString
  | String c s' => String (lower_char c) (lower s')
  end.

(** [v.lower()]: only a str has the method. *)
Definition py_lower (v : value) : exn + string :=
  match v with
  | VStr s => inr (lower s)
  | _ => inl AttributeError
  end.

(** The characters of a string, each as a string of length one. *)
Fixpoint chars (s : string) : list value :=
  match s with
  | EmptyString => []
  | String c s' => VStr (String c EmptyString) :: chars s'
  end.

(** ** f-strings *)

Inductive piece : Type :=
| Lit (s : string)
| Fmt (v : value).

Definition fstring : Type := list piece.

(** ** The remote systems

    [requests.request] either returns a response whose body decodes as JSON,
    or one of the two exception classes that [send_request] handles is
    raised: [requests.exceptions.RequestException] (connection failure,
    error status through [raise_for_status]) or [ValueError] (the body is
    not JSON). *)
Inductive http_result : Type :=
| ReturnsJson (body : value)
| RaisesRequestException (e : string)
| RaisesValueError.

Record request : Type := Request {
  req_method : string;
  req_url : fstring;
  req_headers : gmap string value;
  req_json : value;
  req_params : value
}.

(** What a run does to the outside, in order: the calls of
    [requests.request], each with the request it is given, and the lines
    printed. *)
Inductive event : Type :=
| Sent (r : request)
| Printed (line : fstring).

(** How a computation ends: with a value, with an exception, or waiting for
    a reply that the script of replies does not contain. *)
Inductive outcome (A : Type) : Type :=
| Return (a : A)
| Raise (e : exn)
| Awaiting.
Arguments Return {A} a.
Arguments Raise {A} e.
Arguments Awaiting {A}.

(** An effectful computation reads the replies of the remote systems from
    a script, in the order in which it sends its requests, and yields its
    outcome, the replies left unread and the events it caused. *)
Definition io (A : Type) : Type :=
  list http_result → outcome A * list http_result * list event.

Definition ret {A} (a : A) : io A := λ script, (Return a, script, []).

(** The events [t1] of the first part of a computation come before those
    of the rest. *)
Definition after {A} (t1 : list event)
    (r : outcome A * list http_result * list event)
    : outcome A * list http_result * list event :=
  match r with
  | (o, script, t2) => (o, script, t1 ++ t2)
  end.

Definition bind {A B} (m : io A) (k : A → io B) : io B :=
  λ script,
    match m script with
    | (Return a, script', t1) => after t1 (k a script')
    | (Raise e, script', t1) => (Raise e, script', t1)
    | (Awaiting, script', t1) => (Awaiting, script', t1)
    end.

Notation "'do' x <- m ; k" := (bind m (λ x, k))
  (at level 10, x name, m at level 100, k at level 200,
   format "'[v' 'do'  x  <-  m ; '/' k ']'").
Notation "m ;; k" := (bind m (λ _, k))
  (at level 100, k at level 200, right associativity).

(** A pure computation inside [io]: its exception propagates. *)
Definition lift {A} (m : exn + A) : io A :=
  λ script,
    match m with
    | inl e => (Raise e, script, [])
    | inr a => (Return a, script, [])
    end.

(** [print(line)]. *)
Definition print (line : fstring) : io unit :=
  λ script, (Return tt, script, [Printed line]).

(** [requests.request(...)] followed by [raise_for_status()] and [json()]:
    the request goes out and the next reply of the script comes back. *)
Definition http (r : request) : io http_result :=
  λ script,
    match script with
    | [] => (Awaiting, [], [Sent r])
    | reply :: script' => (Return reply, script', [Sent r])
    end.

(** ** Helper functions of [migrator.py] *)

Definition ENDPOINTS : gmap string string :=
  {[ "connections" := "beta/audience/connection";
     "templates" := "beta/template";
     "audiences" := "beta/audience/query" ]}.

(** [get_endpoint]: the f-string [f"{base_url}{ENDPOINTS[key]}"]. *)
Definition get_endpoint (base_url : value) (key : string) : exn + fstring :=
  match ENDPOINTS !! key with
  | Some suffix => inr [Fmt base_url; Lit suffix]
  | None => inl (KeyError key)
  end.

(** [send_request]: both exception handlers print and fall through to
    [return None]. *)
Definition send_request (method : string) (url : fstring)
    (headers : gmap string value) (json params : value) : io value :=
  do reply <- http (Request method url headers json params);
  match reply with
  | ReturnsJson body => ret body
  | RaisesRequestException e =>
      print [Lit "HTTP error: "; Fmt (VStr e)];;
      ret VNone
  | RaisesValueError =>
      print [Lit "Response could not be decoded as JSON."];;
      ret VNone
  end.

Definition prepare_headers (config : value) (key : string)
    : exn + gmap string value :=
  check section <- py_get config key (VDict ∅);
  check api_key <- py_get section "ApiKey" VNone;
  check customer_id <- py_get section "CustomerId" VNone;
  inr {[ "ApiKey" := api_key;
         "CustomerId" := customer_id;
         "Content-Type" := VStr "application/json" ]}.

Definition required_sections : list string := ["source"; "destination"].

Definition required_fields : gmap string (list string) :=
  {[ "source" := ["url"; "ApiKey"; "CustomerId"];
     "destination" := ["url"; "ApiKey"; "CustomerId"] ]}.

(** The inner loop of [validate_config]: [config[section]] is evaluated for
    every field. *)
Fixpoint validate_fields (config : value) (section : string)
    (fields : list string) : exn + unit :=
  match fields with
  | [] => inr tt
  | field :: fields' =>
      check section_value <- py_getitem config section;
      check present <- py_in field section_value;
      if negb present
      then inl (KeyError ("Missing '" +:+ field +:+ "' in '" +:+ section
                          +:+ "' section."))
      else validate_fields config section fields'
  end.

(** The outer loop of [validate_config]. *)
Fixpoint validate_sections (config : value) (sections : list string)
    : exn + unit :=
  match sections with
  | [] => inr tt
  | section :: sections' =>
      check present <- py_in section config;
      if negb present
      then inl (KeyError ("Missing '" +:+ section
                          +:+ "' section in configuration."))
      else
        check fields <-
          match required_fields !! section with
          | Some fields => inr fields
          | None => inl (KeyError section)
          end;
        check _ <- validate_fields config section fields;
        validate_sections config sections'
  end.

Definition validate_config (config : value) : exn + unit :=
  validate_sections config required_sections.

(** Tactics for closed goals on concrete data. *)
Ltac computed := vm_compute; reflexivity.

Ltac example_section :=
  eexists; split; [reflexivity | computed].

Ltac example_is_page :=
  eexists; split; [reflexivity | split; computed].

Ltac example_mappings :=
  repeat constructor; intros v Hv; vm_compute in Hv;
  injection Hv as <-; by eexists.

(** ** The migration code

    CPython enumerates a set of strings in an order that depends on the
    hashes of its elements, and a dict in the order in which its keys were
    inserted, which a [gmap] does not record.  The embedding takes the
    enumeration as a parameter, [iteration_order], of which the proofs
    assume at most that it lists the elements of the set, each once. *)

Section Migrator.

Variable iteration_order : gset string → list string.
Hypothesis iteration_order_perm : ∀ X, iteration_order X ≡ₚ elements X.

(** The elements that [for x in v] and [list.extend(v)] go through. *)
Definition py_iter (v : value) : exn + list value :=
  match v with
  | VList l => inr l
  | VStr s => inr (chars s)
  | VDict d => inr (VStr <$> iteration_order (dom d))
  | _ => inl TypeError
  end.

(** [d.update(v)]; in [fetch_paginated_data] it is reached only with a
    dict, since [params.get] has been called on the same value. *)
Definition py_update (d : gmap string value) (v : value)
    : exn + gmap string value :=
  match v with
  | VDict p => inr (p ∪ d)
  | _ => inl TypeError
  end.

(** [{**v}]: the items of a mapping. *)
Definition py_mapping (v : value) : exn + gmap string value :=
  match v with
  | VDict d => inr d
  | _ => inl TypeError
  end.

(** [config[section]['url']]. *)
Definition config_url (config : value) (section : string) : exn + value :=
  check section_value <- py_getitem config section;
  py_getitem section_value "url".

(** The query parameters of one listing request: page and size, updated
    with the caller's parameters when there are any. *)
Definition current_params (params size : value) (page : Z)
    : exn + gmap string value :=
  let current_params : gmap string value :=
    {[ "page" := VInt (page - 1); "size" := size ]} in
  if truthy params then py_update current_params params
  else inr current_params.

(** The [while True] loop of [fetch_paginated_data].  Every iteration reads
    one reply, so [fuel] above the length of the script is never used up
    ([fetch_pages_fuel]). *)
Fixpoint fetch_pages (fuel : nat) (url : fstring)
    (headers : gmap string value) (params size : value) (page : Z)
    (all_content : list value) : io (list value) :=
  match fuel with
  | O => λ script, (Awaiting, script, [])
  | S fuel' =>
      do current_params <- lift (current_params params size page);
      do data <- send_request "GET" url headers VNone (VDict current_params);
      if negb (truthy data) then ret all_content
      else
        do content <-
          lift (check c <- py_get data "content" (VList []); py_iter c);
        let all_content := all_content ++ content in
        do last <- lift (py_get data "last" (VBool false));
        if truthy last then ret all_content
        else fetch_pages fuel' url headers params size (page + 1) all_content
  end.

Definition fetch_paginated_data (config : value) (endpoint : string)
    (params : value) : io (list value) :=
  do base_url <- lift (config_url config "source");
  do url <- lift (get_endpoint base_url endpoint);
  do headers <- lift (prepare_headers config "source");
  do size <-
    lift (if truthy params then py_get params "size" (VInt 100)
          else inr (VInt 100));
  λ script, fetch_pages (S (length script)) url headers params size 1 [] script.

(** The dict comprehension [{db["name"].lower(): db for db in dbs}]: a later
    record replaces an earlier one under the same key. *)
Fixpoint name_map (dbs : list value) (acc : gmap string value)
    : exn + gmap string value :=
  match dbs with
  | [] => inr acc
  | db :: dbs' =>
      check name <- py_getitem db "name";
      check key <- py_lower name;
      name_map dbs' (<[key := db]> acc)
  end.

(** The loop [for name in common_names] of [sync_connections]. *)
Fixpoint create_connections (names : list string)
    (source_map config_map : gmap string value)
    (headers : gmap string value) (api_url : fstring) : io unit :=
  match names with
  | [] => ret tt
  | name :: names' =>
      do source_db <- lift (py_getitem (VDict source_map) name);
      do config_db <- lift (py_getitem (VDict config_map) name);
      do source_fields <- lift (py_mapping source_db);
      do password <- lift (py_get config_db "password" VNone);
      do port <- lift (py_get config_db "port" VNone);
      do host <- lift (py_get config_db "host" VNone);
      do user <- lift (py_get config_db "user" VNone);
      let payload : gmap string value :=
        <["user" := user]> (<["host" := host]> (<["port" := port]>
          (<["password" := password]> source_fields))) in
      do response <- send_request "POST" api_url headers (VDict payload) VNone;
      (if truthy response
       then print [Lit "Successfully created database connection for '";
                   Fmt (VStr name); Lit "'"]
       else print [Lit "Failed to create database connection for '";
                   Fmt (VStr name); Lit "'"]);;
      create_connections names' source_map config_map headers api_url
  end.

Definition sync_connections (db_payload : list value) (config : value)
    : io unit :=
  do config_databases <- lift (py_get config "databases" (VList []));
  do source_map <- lift (name_map db_payload ∅);
  do config_map <-
    lift (check dbs <- py_iter config_databases; name_map dbs ∅);
  let common_names := dom source_map ∩ dom config_map in
  do headers <- lift (prepare_headers config "destination");
  do api_url <-
    lift (check base_url <- config_url config "destination";
          get_endpoint base_url "connections");
  create_connections (iteration_order common_names) source_map config_map
    headers api_url.

Definition fetch_content (config : value) (template_id : value) : io value :=
  do url <-
    lift (check base_url <- config_url config "source";
          get_endpoint base_url "templates");
  let url := url ++ [Lit "/"; Fmt template_id] in
  do headers <- lift (prepare_headers config "source");
  send_request "GET" url headers VNone VNone.

Definition create_template (config : value) (template_data : value)
    : io value :=
  do url <-
    lift (check base_url <- config_url config "destination";
          get_endpoint base_url "templates");
  do headers <- lift (prepare_headers config "destination");
  do response <- send_request "POST" url headers template_data VNone;
  if truthy response
  then print [Lit "Template created successfully."];; ret response
  else print [Lit "Failed to create template."];; ret VNone.

Definition fetch_audiences (config : value) : io (list value) :=
  print [Lit "Fetching audiences from source..."];;
  fetch_paginated_data config "audiences" VNone.

Definition create_audience (config : value) (audience_data : value)
    : io value :=
  do url <-
    lift (check base_url <- config_url config "destination";
          get_endpoint base_url "audiences");
  do headers <- lift (prepare_headers config "destination");
  do response <- send_request "POST" url headers audience_data VNone;
  if truthy response
  then
    do name <- lift (py_getitem audience_data "name");
    print [Lit "Audience '"; Fmt name; Lit "' created successfully."];;
    ret response
  else
    do name <- lift (py_getitem audience_data "name");
    print [Lit "Failed to create audience '"; Fmt name; Lit "': ";
           Fmt response];;
    ret VNone.

(** The loop [for template in templates] of [main]. *)
Fixpoint for_template_in (config : value) (templates : list value)
    : io unit :=
  match templates with
  | [] => ret tt
  | template :: templates' =>
      do shown_id <- lift (py_getitem template "id");
      print [Lit "Migrating Template ID: "; Fmt shown_id];;
      do template_id <- lift (py_getitem template "id");
      do template_data <- fetch_content config template_id;
      (if truthy template_data
       then create_template config template_data;; ret tt
       else ret tt);;
      for_template_in config templates'
  end.

(** The loop [for audience in audiences] of [main]. *)
Fixpoint for_audience_in (config : value) (audiences : list value)
    : io unit :=
  match audiences with
  | [] => ret tt
  | audience :: audiences' =>
      do name <- lift (py_getitem audience "name");
      print [Lit "Migrating Audience: "; Fmt name];;
      create_audience config audience;;
      for_audience_in config audiences'
  end.

(** [main], from the configuration that [load_config] returned: the
    command line and the configuration file are read outside. *)
Definition main (config : value) : io unit :=
  lift (validate_config config);;
  do migrate_config <- lift (py_get config "migrating" (VDict ∅));
  do migrate_templates <- lift (py_get migrate_config "templates" (VBool false));
  (if truthy migrate_templates
   then
     print [Lit "Fetching templates..."];;
     do templates <- fetch_paginated_data config "templates" VNone;
     for_template_in config templates
   else ret tt);;
  do migrate_audiences <- lift (py_get migrate_config "audiences" (VBool false));
  (if truthy migrate_audiences
   then
     print [Lit "Fetching audiences..."];;
     do audiences <- fetch_audiences config;
     for_audience_in config audiences
   else ret tt);;
  do migrate_databases <- lift (py_get migrate_config "databases" (VBool false));
  (if truthy migrate_databases
   then
     print [Lit "Fetching connections..."];;
     do connections <- fetch_paginated_data config "connections" VNone;
     sync_connections connections config
   else ret tt).


(** ** Vocabulary of the specification *)

(** The requests among the events of a run, in the order they were sent. *)
Definition requests_of (tr : list event) : list request :=
  omap (λ ev, match ev with Sent r => Some r | Printed _ => None end) tr.

(** The lines among the events of a run, in the order they were printed. *)
Definition lines_of (tr : list event) : list fstring :=
  omap (λ ev, match ev with Printed l => Some l | Sent _ => None end) tr.

(** The bodies of the POST requests of a run: the records it created. *)
Definition created (tr : list event) : list value :=
  req_json <$> filter (λ r, req_method r = "POST") (requests_of tr).

(** What [send_request] hands to its caller for a reply. *)
Definition received (reply : http_result) : value :=
  match reply with
  | ReturnsJson body => body
  | RaisesRequestException _ | RaisesValueError => VNone
  end.

(** What [send_request] prints for a reply. *)
Definition complaint (reply : http_result) : list event :=
  match reply with
  | ReturnsJson _ => []
  | RaisesRequestException e => [Printed [Lit "HTTP error: "; Fmt (VStr e)]]
  | RaisesValueError => [Printed [Lit "Response could not be decoded as JSON."]]
  end.

(** The request of a transport or decoding failure: one of the two
    exceptions that [send_request] handles was raised. *)
Definition failed (reply : http_result) : Prop :=
  match reply with
  | ReturnsJson _ => False
  | RaisesRequestException _ | RaisesValueError => True
  end.

(** A listing response: an object with the array [content] and the boolean
    [last]. *)
Definition is_page (v : value) (content : list value) (last : bool) : Prop :=
  ∃ d, v = VDict d ∧ d !! "content" = Some (VList content)
       ∧ d !! "last" = Some (VBool last).

(** [config[key]] is a section: a mapping of field names to values. *)
Definition config_section (config : value) (key : string)
    (section : gmap string value) : Prop :=
  ∃ c, config = VDict c ∧ c !! key = Some (VDict section).

(** Extra query parameters that [fetch_paginated_data] accepts: none
    (any falsy value, [None] by default) or a dict. *)
Definition usable_params (params : value) : Prop :=
  truthy params = false ∨ ∃ p, params = VDict p.

(** The extra query parameters do not redefine [page]. *)
Definition keeps_page (params : value) : Prop :=
  match params with
  | VDict p => p !! "page" = None
  | _ => True
  end.

Definition extra_params (params : value) : gmap string value :=
  match params with
  | VDict p => p
  | _ => ∅
  end.

(** The listing request for the 0-based page [index]. *)
Definition listing_request (url : fstring) (headers : gmap string value)
    (params size : value) (index : Z) : request :=
  Request "GET" url headers VNone
    (VDict (extra_params params ∪ {[ "page" := VInt index; "size" := size ]})).

(** The page size that [fetch_paginated_data] asks for. *)
Definition page_size (params : value) : value :=
  default (VInt 100) (extra_params params !! "size").

(** The name under which [sync_connections] compares a connection record:
    its [name], lower-cased. *)
Definition record_name (v : value) : option string :=
  match v with
  | VDict d =>
      match d !! "name" with
      | Some (VStr s) => Some (lower s)
      | _ => None
      end
  | _ => None
  end.

(** A connection record: an object whose [name] is a string. *)
Definition named (v : value) : Prop := is_Some (record_name v).

(** The last record of a list, in the order of the list, that goes by the
    name [name]. *)
Fixpoint last_named (name : string) (records : list value) : option value :=
  match records with
  | [] => None
  | v :: records' =>
      match last_named name records' with
      | Some w => Some w
      | None => if decide (record_name v = Some name) then Some v else None
      end
  end.

(** The names that occur both in the source list and in the local list. *)
Definition common_names (db_payload locals : list value) : gset string :=
  list_to_set (omap record_name db_payload)
  ∩ list_to_set (omap record_name locals).

(** The fields that come from the local configuration. *)
Definition secret_fields : list string := ["password"; "port"; "host"; "user"].

(** The secret fields as the local record has them, [None] for a field that
    it lacks. *)
Definition secrets (config_db : gmap string value) : gmap string value :=
  list_to_map ((λ field, (field, default VNone (config_db !! field)))
               <$> secret_fields).

(** The fields of the source record, overridden by the secret fields of the
    local record. *)
Definition overlay (source_db config_db : gmap string value)
    : gmap string value :=
  secrets config_db ∪ source_db.

(** The payload expected for a name: the last source record of that name
    overlaid with the last local record of that name. *)
Definition merged_payload (db_payload locals : list value) (name : string)
    : value :=
  match last_named name db_payload, last_named name locals with
  | Some (VDict s), Some (VDict c) => VDict (overlay s c)
  | _, _ => VNone
  end.

(** The list [config.get("databases", [])] of the configuration. *)
Definition configured_databases (config : value) (locals : list value)
    : Prop :=
  ∃ c, config = VDict c ∧ default (VList []) (c !! "databases") = VList locals.

(** The listing requests for [n] pages from the 0-based index [first]. *)
Definition listing_requests (url : fstring) (headers : gmap string value)
    (params size : value) (first : Z) (n : nat) : list event :=
  (λ i, Sent (listing_request url headers params size i))
  <$> seqZ first (Z.of_nat n).

(** Headers that [prepare_headers] builds from a section. *)
Definition section_headers (section : gmap string value)
    : gmap string value :=
  {[ "ApiKey" := default VNone (section !! "ApiKey");
     "CustomerId" := default VNone (section !! "CustomerId");
     "Content-Type" := VStr "application/json" ]}.

(** The line that [sync_connections] prints after creating a connection. *)
Definition connection_report (name : string) (response : value) : fstring :=
  if truthy response
  then [Lit "Successfully created database connection for '";
        Fmt (VStr name); Lit "'"]
  else [Lit "Failed to create database connection for '";
        Fmt (VStr name); Lit "'"].

(** The events of creating one connection: the POST request, the complaint
    about a failed request, the report. *)
Definition connection_events (headers : gmap string value) (api_url : fstring)
    (payload : string → value) (name : string) (reply : http_result)
    : list event :=
  Sent (Request "POST" api_url headers (payload name) VNone)
  :: complaint reply ++ [Printed (connection_report name (received reply))].

(** The line that [create_template] prints. *)
Definition template_report (response : value) : fstring :=
  if truthy response then [Lit "Template created successfully."]
  else [Lit "Failed to create template."].

(** The line that [create_audience] prints. *)
Definition audience_report (name response : value) : fstring :=
  if truthy response
  then [Lit "Audience '"; Fmt name; Lit "' created successfully."]
  else [Lit "Failed to create audience '"; Fmt name; Lit "': "; Fmt response].

(** The detail request for a template. *)
Definition detail_request (source : gmap string value) (base : value)
    (template_id : value) : request :=
  Request "GET" [Fmt base; Lit "beta/template"; Lit "/"; Fmt template_id]
    (section_headers source) VNone VNone.

(** The create request for a record of the resource kind with URL suffix
    [suffix]. *)
Definition create_request (destination : gmap string value) (base : value)
    (suffix : string) (payload : value) : request :=
  Request "POST" [Fmt base; Lit suffix] (section_headers destination)
    payload VNone.

(** The replies that one template of the templates flow reads: the reply to
    the detail request and, when the detail is truthy, the reply to the
    create request. *)
Definition template_replies (step : http_result * http_result)
    : list http_result :=
  if truthy (received step.1) then [step.1; step.2] else [step.1].

(** The events of one template of the templates flow. *)
Definition template_events (source destination : gmap string value)
    (base_source base_destination : value) (template_id : value)
    (step : http_result * http_result) : list event :=
  [Printed [Lit "Migrating Template ID: "; Fmt template_id];
   Sent (detail_request source base_source template_id)]
  ++ complaint step.1
  ++ (if truthy (received step.1)
      then Sent (create_request destination base_destination "beta/template"
                   (received step.1))
           :: complaint step.2
           ++ [Printed (template_report (received step.2))]
      else []).

(** The events of one audience of the audiences flow. *)
Definition audience_events (destination : gmap string value) (base : value)
    (audience : value) (name : value) (reply : http_result) : list event :=
  [Printed [Lit "Migrating Audience: "; Fmt name];
   Sent (create_request destination base "beta/audience/query" audience)]
  ++ complaint reply
  ++ [Printed (audience_report name (received reply))].

(** A line that reports a failure: the complaint of [send_request] or the
    report of a creation that did not succeed. *)
Definition failure_notice (line : fstring) : bool :=
  match line with
  | Lit s :: _ =>
      String.prefix "HTTP error" s
      || String.prefix "Response could not be decoded" s
      || String.prefix "Failed to create" s
  | _ => false
  end.

(** The flag of the [migrating] section that guards the flow to which a
    request belongs, by the endpoint of its URL. *)
Definition flow_flag (r : request) : option string :=
  match req_url r with
  | Fmt _ :: Lit suffix :: _ =>
      if decide (suffix = "beta/template") then Some "templates"
      else if decide (suffix = "beta/audience/query") then Some "audiences"
      else if decide (suffix = "beta/audience/connection") then Some "databases"
      else None
  | _ => None
  end.

(** The flag is present in the [migrating] section and truthy. *)
Definition flag_set (config : value) (flag : string) : Prop :=
  ∃ c m v, config = VDict c ∧ c !! "migrating" = Some (VDict m)
           ∧ m !! flag = Some v ∧ truthy v = true.

(** A required section is missing, or a required section lacks one of its
    required fields. *)
Definition lacks_required (c : gmap string value) : Prop :=
  Exists (λ section,
            c !! section = None
            ∨ ∃ s fields field,
                c !! section = Some (VDict s)
                ∧ required_fields !! section = Some fields
                ∧ field ∈ fields
                ∧ s !! field = None) required_sections.

(** The required sections that are present are mappings. *)
Definition sections_are_mappings (c : gmap string value) : Prop :=
  Forall (λ section, ∀ v, c !! section = Some v → ∃ s, v = VDict s)
    required_sections.

(** The events of a run. *)
Definition trace_of {A} (r : outcome A * list http_result * list event)
    : list event := r.2.

(** Every request that a computation sends satisfies [P], on every
    script. *)
Definition sends_only {A} (P : request → Prop) (m : io A) : Prop :=
  ∀ script, Forall P (requests_of (trace_of (m script))).

(** The request belongs to the flow that [flag] guards. *)
Definition of_flow (flag : string) (r : request) : Prop :=
  flow_flag r = Some flag.

(** ** Example data

    A configuration, records and replies on which the properties below are
    exercised. *)

Definition example_source : gmap string value :=
  {[ "url" := VStr "https://source.example/";
     "ApiKey" := VStr "source-key";
     "CustomerId" := VInt 1 ]}.

Definition example_destination : gmap string value :=
  {[ "url" := VStr "https://destination.example/";
     "ApiKey" := VStr "destination-key";
     "CustomerId" := VInt 2 ]}.

(** Local connections b, c and d; c has no port. *)
Definition example_locals : list value :=
  [ VDict {[ "name" := VStr "b"; "host" := VStr "b.local"; "port" := VInt 5432;
             "user" := VStr "bob"; "password" := VStr "b-secret" ]};
    VDict {[ "name" := VStr "c"; "host" := VStr "c.local";
             "user" := VStr "carol"; "password" := VStr "c-secret" ]};
    VDict {[ "name" := VStr "d"; "host" := VStr "d.local"; "port" := VInt 3306;
             "user" := VStr "dan"; "password" := VStr "d-secret" ]} ].

Definition example_config : value :=
  VDict {[ "source" := VDict example_source;
           "destination" := VDict example_destination;
           "databases" := VList example_locals;
           "migrating" := VDict {[ "templates" := VBool true;
                                   "audiences" := VBool false ]} ]}.

(** The same configuration without [ApiKey] in the destination section. *)
Definition example_incomplete : gmap string value :=
  {[ "source" := VDict example_source;
     "destination" := VDict (delete "ApiKey" example_destination) ]}.

(** The same configuration without a [migrating] section. *)
Definition example_unflagged : value :=
  VDict {[ "source" := VDict example_source;
           "destination" := VDict example_destination ]}.

(** Source connections A, B and C; B occurs twice, the second time in
    lower case and with another type. *)
Definition example_connections : list value :=
  [ VDict {[ "name" := VStr "A"; "type" := VStr "postgres" ]};
    VDict {[ "name" := VStr "B"; "type" := VStr "postgres" ]};
    VDict {[ "name" := VStr "C"; "type" := VStr "mysql"; "port" := VInt 1 ]};
    VDict {[ "name" := VStr "b"; "type" := VStr "oracle" ]} ].

Definition example_audience (name : string) : value :=
  VDict {[ "name" := VStr name ]}.

Definition example_page (content : list value) (last : bool) : value :=
  VDict {[ "content" := VList content; "last" := VBool last ]}.

Definition example_template (template_id : Z) : value :=
  VDict {[ "id" := VInt template_id ]}.

Definition example_detail (template_id : Z) : value :=
  VDict {[ "id" := VInt template_id; "body" := VStr "<p>hello</p>" ]}.

Definition example_created : http_result :=
  ReturnsJson (VDict {[ "status" := VStr "created" ]}).

(** ** Vocabulary of the further properties *)

(** [load_ini], from the state of the [ConfigParser] after [config.read]:
    for every name of [config.sections()], the options of [config[section]]
    with their values, which are strings.  The dict comprehension turns
    each section into a dict. *)
Definition load_ini (parsed : gmap string (gmap string string)) : value :=
  VDict ((λ options : gmap string string, VDict (VStr <$> options)) <$> parsed).

(** Every required section is a mapping that has every required field. *)
Definition complete_config (c : gmap string value) : Prop :=
  Forall (λ section,
            ∃ s fields,
              c !! section = Some (VDict s)
              ∧ required_fields !! section = Some fields
              ∧ Forall (λ field, is_Some (s !! field)) fields)
    required_sections.

(** A listing response as the loop reads it: a non-empty object whose
    [content], when there is one, is an array, and whose [last] is tested
    for truth, an absent one counting as false. *)
Definition loose_page (v : value) (content : list value) (last : bool) : Prop :=
  ∃ d, v = VDict d
       ∧ truthy (VDict d) = true
       ∧ default (VList []) (d !! "content") = VList content
       ∧ truthy (default (VBool false) (d !! "last")) = last.

(** The [migrating] section as [main] reads it: empty when the
    configuration has none. *)
Definition migrate_config_of (c : gmap string value)
    : option (gmap string value) :=
  match c !! "migrating" with
  | None => Some ∅
  | Some (VDict m) => Some m
  | Some _ => None
  end.

(** The truth value of a flag of the [migrating] section. *)
Definition flag_value (m : gmap string value) (flag : string) : bool :=
  truthy (default (VBool false) (m !! flag)).

(** A request that reads from the source system: a GET with the headers of
    the source section, to a URL under the source URL. *)
Definition reads_source (source : gmap string value) (base : value)
    (r : request) : Prop :=
  req_method r = "GET"
  ∧ req_headers r = section_headers source
  ∧ ∃ path, req_url r = Fmt base :: path.

(** A request that writes to the destination system: a POST with the
    headers of the destination section, to a URL under the destination
    URL. *)
Definition writes_destination (destination : gmap string value) (base : value)
    (r : request) : Prop :=
  req_method r = "POST"
  ∧ req_headers r = section_headers destination
  ∧ ∃ path, req_url r = Fmt base :: path.

(** The requests of a run come in three phases: those of the templates
    flow, then those of the audiences flow, then those of the databases
    flow. *)
Definition in_flow_order (requests : list request) : Prop :=
  ∃ t a d,
    requests = t ++ a ++ d
    ∧ Forall (of_flow "templates") t
    ∧ Forall (of_flow "audiences") a
    ∧ Forall (of_flow "databases") d.

(** What the dict comprehension of [sync_connections] raises on a record:
    nothing on an object whose [name] is a string. *)
Definition name_error (v : value) : option exn :=
  match v with
  | VDict d =>
      match d !! "name" with
      | None => Some (KeyError "name")
      | Some (VStr _) => None
      | Some _ => Some AttributeError
      end
  | _ => Some TypeError
  end.

(** Example data of the further properties. *)

Definition example_complete : gmap string value :=
  {[ "source" := VDict example_source;
     "destination" := VDict example_destination;
     "migrating" := VDict {[ "audiences" := VStr "false" ]} ]}.

(** What [configparser] makes of a complete INI file: the option names in
    lower case. *)
Definition example_ini : gmap string (gmap string string) :=
  {[ "source" := {[ "url" := "https://source.example/";
                    "apikey" := "source-key"; "customerid" := "1" ]};
     "destination" := {[ "url" := "https://destination.example/";
                         "apikey" := "destination-key";
                         "customerid" := "2" ]} ]}.

(** Sections given as lists of the field names. *)
Definition example_listed : gmap string value :=
  {[ "source" := VList [VStr "url"; VStr "ApiKey"; VStr "CustomerId"];
     "destination" := VList [VStr "url"; VStr "ApiKey"; VStr "CustomerId"];
     "migrating" := VDict {[ "templates" := VBool true ]} ]}.

(** A complete configuration with the templates flag given as a string. *)
Definition example_templates_flag : gmap string value :=
  {[ "source" := VDict example_source;
     "destination" := VDict example_destination;
     "migrating" := VDict {[ "templates" := VStr "false" ]} ]}.

(** A complete configuration without a [migrating] section. *)
Definition example_plain : gmap string value :=
  {[ "source" := VDict example_source;
     "destination" := VDict example_destination ]}.

(** A complete configuration whose [migrating] entry is a boolean. *)
Definition example_migrating_true : gmap string value :=
  {[ "source" := VDict example_source;
     "destination" := VDict example_destination;
     "migrating" := VBool true ]}.

(** ** The monad *)

Lemma after_nil {A} (r : outcome A * list http_result * list event) :
  after [] r = r.
Proof. by destruct r as [[o u] t]. Qed.

Lemma after_after {A} t1 t2 (r : outcome A * list http_result * list event) :
  after t1 (after t2 r) = after (t1 ++ t2) r.
Proof. destruct r as [[o u] t]. simpl. by rewrite app_assoc. Qed.

Lemma bind_ret {A B} (a : A) (k : A → io B) script :
  bind (ret a) k script = k a script.
Proof. unfold bind, ret. apply after_nil. Qed.

Lemma bind_lift_inr {A B} (a : A) (k : A → io B) script :
  bind (lift (inr a)) k script = k a script.
Proof. unfold bind, lift. apply after_nil. Qed.

Lemma bind_lift_inl {A B} (e : exn) (k : A → io B) script :
  bind (lift (inl e)) k script = (Raise e, script, []).
Proof. reflexivity. Qed.

Lemma bind_lift {A B} (m : exn + A) (k : A → io B) script :
  bind (lift m) k script
  = match m with
    | inl e => (Raise e, script, [])
    | inr a => k a script
    end.
Proof. destruct m; [done|]. apply bind_lift_inr. Qed.

Lemma bind_print {B} line (k : unit → io B) script :
  bind (print line) k script = after [Printed line] (k tt script).
Proof. reflexivity. Qed.

Lemma bind_run {A B} (m : io A) (k : A → io B) script a script' t :
  m script = (Return a, script', t) →
  bind m k script = after t (k a script').
Proof. intros H. unfold bind. by rewrite H. Qed.

Lemma bind_bind {A B C} (m : io A) (k : A → io B) (h : B → io C) script :
  bind (bind m k) h script = bind m (λ a, bind (k a) h) script.
Proof.
  unfold bind. destruct (m script) as [[[a| e |] u] t]; try done.
  destruct (k a u) as [[[b| e |] u'] t']; simpl; try done.
  by rewrite after_after.
Qed.

(** [send_request] on a script that has a reply: the request goes out, the
    complaint about a failure is printed, and the caller gets the decoded
    body or [None]. *)
Lemma send_request_reply method url headers json params reply script :
  send_request method url headers json params (reply :: script)
  = (Return (received reply), script,
     Sent (Request method url headers json params) :: complaint reply).
Proof. by destruct reply. Qed.

(** [send_request] on the empty script: the request goes out and no reply
    comes. *)
Lemma send_request_awaiting method url headers json params :
  send_request method url headers json params []
  = (Awaiting, [], [Sent (Request method url headers json params)]).
Proof. reflexivity. Qed.

(** ** Pagination *)

Lemma truthy_dict_lookup (d : gmap string value) key x :
  d !! key = Some x → truthy (VDict d) = true.
Proof.
  intros H. simpl. apply negb_true_iff, bool_decide_eq_false.
  intros Hd. apply (elem_of_dom_2 d) in H. rewrite Hd in H.
  by apply not_elem_of_empty in H.
Qed.

Lemma truthy_dict_false (d : gmap string value) :
  truthy (VDict d) = false → d = ∅.
Proof.
  simpl. intros H. apply negb_false_iff, bool_decide_eq_true in H.
  by apply dom_empty_iff_L.
Qed.

Lemma current_params_usable params size page :
  usable_params params →
  current_params params size page
  = inr (extra_params params ∪ {[ "page" := VInt (page - 1); "size" := size ]}).
Proof.
  intros [Hfalse | [p ->]]; unfold current_params.
  - rewrite Hfalse. destruct params; simpl; rewrite ?(left_id_L ∅ (∪)); try done.
    by rewrite (truthy_dict_false _ Hfalse), (left_id_L ∅ (∪)).
  - destruct (truthy (VDict p)) eqn:Ht; simpl; [done|].
    by rewrite (truthy_dict_false _ Ht), (left_id_L ∅ (∪)).
Qed.

Lemma fetch_pages_unfold fuel url headers params size page all_content :
  fetch_pages (S fuel) url headers params size page all_content
  = (do current_params <- lift (current_params params size page);
     do data <- send_request "GET" url headers VNone (VDict current_params);
     if negb (truthy data) then ret all_content
     else
       do content <-
         lift (check c <- py_get data "content" (VList []); py_iter c);
       do last <- lift (py_get data "last" (VBool false));
       if truthy last then ret (all_content ++ content)
       else fetch_pages fuel url headers params size (page + 1)
              (all_content ++ content)).
Proof. reflexivity. Qed.

(** One iteration of the loop up to the reply. *)
Lemma fetch_pages_reply fuel url headers params size page acc reply script :
  usable_params params →
  fetch_pages (S fuel) url headers params size page acc (reply :: script)
  = after (Sent (listing_request url headers params size (page - 1))
           :: complaint reply)
      ((if negb (truthy (received reply)) then ret acc
        else
          do content <-
            lift (check c <- py_get (received reply) "content" (VList []);
                  py_iter c);
          do last <- lift (py_get (received reply) "last" (VBool false));
          if truthy last then ret (acc ++ content)
          else fetch_pages fuel url headers params size (page + 1)
                 (acc ++ content)) script).
Proof.
  intros Hp. rewrite fetch_pages_unfold, (current_params_usable _ _ _ Hp).
  rewrite bind_lift_inr.
  by rewrite (bind_run _ _ _ _ _ _ (send_request_reply _ _ _ _ _ _ _)).
Qed.

(** The loop asks for a page before anything else. *)
Lemma fetch_pages_asks fuel url headers params size page acc script :
  usable_params params →
  ∃ o unread t,
    fetch_pages (S fuel) url headers params size page acc script
    = (o, unread, Sent (listing_request url headers params size (page - 1)) :: t).
Proof.
  intros Hp. destruct script as [|reply script].
  - rewrite fetch_pages_unfold, (current_params_usable _ _ _ Hp), bind_lift_inr.
    unfold bind. rewrite send_request_awaiting. eauto.
  - rewrite (fetch_pages_reply _ _ _ _ _ _ _ _ _ Hp).
    destruct (_ script) as [[o u] t]. simpl. eauto.
Qed.

(** A reply that is falsy ends the loop with what has been accumulated. *)
Lemma fetch_pages_no_data fuel url headers params size page acc reply script :
  usable_params params →
  truthy (received reply) = false →
  fetch_pages (S fuel) url headers params size page acc (reply :: script)
  = (Return acc, script,
     Sent (listing_request url headers params size (page - 1))
     :: complaint reply).
Proof.
  intros Hp Hf. rewrite (fetch_pages_reply _ _ _ _ _ _ _ _ _ Hp), Hf. simpl.
  by rewrite app_nil_r.
Qed.

(** A page ends the loop when it is the last one, and otherwise hands its
    content to the next iteration. *)
Lemma fetch_pages_page fuel url headers params size page acc v content last
    script :
  usable_params params →
  is_page v content last →
  fetch_pages (S fuel) url headers params size page acc
    (ReturnsJson v :: script)
  = after [Sent (listing_request url headers params size (page - 1))]
      (if last then (Return (acc ++ content), script, [])
       else fetch_pages fuel url headers params size (page + 1)
              (acc ++ content) script).
Proof.
  intros Hp (d & -> & Hc & Hl).
  rewrite (fetch_pages_reply _ _ _ _ _ _ _ _ _ Hp).
  cbn [received complaint]. rewrite (truthy_dict_lookup _ _ _ Hc).
  cbn [negb py_get]. rewrite Hc, Hl. cbn [default from_option id ebind py_iter].
  rewrite !bind_lift_inr. by destruct last.
Qed.

Lemma listing_requests_S url headers params size first n :
  listing_requests url headers params size first (S n)
  = Sent (listing_request url headers params size first)
    :: listing_requests url headers params size (first + 1) n.
Proof.
  unfold listing_requests.
  rewrite Nat2Z.inj_succ, seqZ_cons by lia.
  simpl. do 3 f_equal; lia.
Qed.

(** Pages that are not the last are consumed one per iteration. *)
Lemma fetch_pages_run url headers params size vs contents :
  usable_params params →
  Forall2 (λ v c, is_page v c false) vs contents →
  ∀ fuel page acc script,
    fetch_pages (length vs + fuel) url headers params size page acc
      ((ReturnsJson <$> vs) ++ script)
    = after (listing_requests url headers params size (page - 1) (length vs))
        (fetch_pages fuel url headers params size (page + Z.of_nat (length vs))
           (acc ++ concat contents) script).
Proof.
  intros Hp Hpages. induction Hpages as [|v c vs contents Hv _ IH];
    intros fuel page acc script.
  - simpl. rewrite Z.add_0_r, app_nil_r. by rewrite after_nil.
  - cbn [length fmap list_fmap app concat Nat.add].
    rewrite (fetch_pages_page _ _ _ _ _ _ _ _ _ _ _ Hp Hv).
    rewrite IH, after_after, listing_requests_S.
    rewrite Nat2Z.inj_succ, <- app_assoc.
    replace (page + 1 - 1)%Z with (page - 1 + 1)%Z by lia.
    replace (page + 1 + Z.of_nat (length vs))%Z
      with (page + Z.succ (Z.of_nat (length vs)))%Z by lia.
    done.
Qed.

(** Fuel above the length of the script is never used up. *)
Lemma fetch_pages_fuel url headers params size fuel :
  ∀ script page acc,
    (length script < fuel)%nat →
    fetch_pages fuel url headers params size page acc script
    = fetch_pages (S (length script)) url headers params size page acc script.
Proof.
  induction fuel as [|fuel IH]; intros script page acc Hlt; [lia|].
  rewrite !fetch_pages_unfold, !bind_lift.
  destruct (current_params params size page) as [e|cp]; [done|].
  destruct script as [|reply script]; [done|].
  rewrite !(bind_run _ _ _ _ _ _ (send_request_reply _ _ _ _ _ _ _)).
  f_equal. destruct (negb _); [done|].
  rewrite !bind_lift. destruct (ebind _ _) as [e|content]; [done|].
  rewrite !bind_lift. destruct (py_get _ _ _) as [e|last]; [done|].
  destruct (truthy last); [done|].
  apply IH. simpl in Hlt. lia.
Qed.


Lemma requests_of_app t1 t2 :
  requests_of (t1 ++ t2) = requests_of t1 ++ requests_of t2.
Proof. apply omap_app. Qed.

Lemma requests_of_listing url headers params size first n :
  requests_of (listing_requests url headers params size first n)
  = listing_request url headers params size <$> seqZ first (Z.of_nat n).
Proof.
  unfold listing_requests, requests_of.
  induction (seqZ first (Z.of_nat n)) as [|i l IH]; [done|].
  cbn. by f_equal.
Qed.

Lemma requests_of_sent r t : requests_of (Sent r :: t) = r :: requests_of t.
Proof. reflexivity. Qed.

Lemma requests_of_printed line t :
  requests_of (Printed line :: t) = requests_of t.
Proof. reflexivity. Qed.

Lemma requests_of_complaint reply : requests_of (complaint reply) = [].
Proof. by destruct reply. Qed.

Lemma listing_requests_snoc url headers params size first n :
  listing_requests url headers params size first n
  ++ [Sent (listing_request url headers params size (first + Z.of_nat n))]
  = listing_requests url headers params size first (S n).
Proof.
  unfold listing_requests.
  by rewrite seqZ_S, fmap_app.
Qed.

(** The page index of a listing request is the one asked for, unless the
    extra parameters redefine it. *)
Lemma listing_request_page url headers params size index :
  keeps_page params →
  ∃ q, req_params (listing_request url headers params size index) = VDict q
       ∧ q !! "page" = Some (VInt index).
Proof.
  intros Hk. eexists. split; [reflexivity|].
  rewrite lookup_union_r.
  - apply lookup_insert_eq.
  - destruct params; simpl in *; try apply lookup_empty. done.
Qed.

Lemma prepare_headers_section config key section :
  config_section config key section →
  prepare_headers config key = inr (section_headers section).
Proof.
  intros (c & -> & Hs). unfold prepare_headers. simpl. by rewrite Hs.
Qed.

Lemma config_url_section config key section base :
  config_section config key section →
  section !! "url" = Some base →
  config_url config key = inr base.
Proof.
  intros (c & -> & Hs) Hu. unfold config_url. simpl. rewrite Hs. simpl.
  by rewrite Hu.
Qed.

Lemma get_endpoint_suffix base key suffix :
  ENDPOINTS !! key = Some suffix →
  get_endpoint base key = inr [Fmt base; Lit suffix].
Proof. intros H. unfold get_endpoint. by rewrite H. Qed.

(** With a source section that has a URL, [fetch_paginated_data] is its
    loop, started at page 1 with nothing accumulated. *)
Lemma fetch_paginated_data_loop config endpoint params source base suffix
    script :
  config_section config "source" source →
  source !! "url" = Some base →
  ENDPOINTS !! endpoint = Some suffix →
  usable_params params →
  fetch_paginated_data config endpoint params script
  = fetch_pages (S (length script)) [Fmt base; Lit suffix]
      (section_headers source) params (page_size params) 1 [] script.
Proof.
  intros Hs Hu He Hp. unfold fetch_paginated_data.
  rewrite (config_url_section _ _ _ _ Hs Hu), bind_lift_inr.
  rewrite (get_endpoint_suffix _ _ _ He), bind_lift_inr.
  rewrite (prepare_headers_section _ _ _ Hs), bind_lift_inr.
  assert ((if truthy params then py_get params "size" (VInt 100)
           else inr (VInt 100)) = inr (page_size params)) as ->.
  { unfold page_size. destruct Hp as [Hf | [p ->]].
    - rewrite Hf. destruct params; try done.
      by rewrite (truthy_dict_false _ Hf).
    - destruct (truthy (VDict p)) eqn:Ht; [done|].
      by rewrite (truthy_dict_false _ Ht). }
  by rewrite bind_lift_inr.
Qed.

(** C1: when the replies are pages of which all but the last say
    [last = false] and the last says [last = true], and the extra
    parameters do not redefine [page], [fetch_paginated_data] returns the
    contents of the pages concatenated in the order of the replies, having
    sent one GET request per page, with the 0-based page indices 0, 1, 2,
    ... in that order. *)
Theorem fetch_paginated_data_concatenates config endpoint params source base
    suffix vs contents v final rest :
  config_section config "source" source →
  source !! "url" = Some base →
  ENDPOINTS !! endpoint = Some suffix →
  usable_params params →
  keeps_page params →
  Forall2 (λ v c, is_page v c false) vs contents →
  is_page v final true →
  ∃ tr,
    fetch_paginated_data config endpoint params
      ((ReturnsJson <$> vs) ++ ReturnsJson v :: rest)
    = (Return (concat contents ++ final), rest, tr)
    ∧ length tr = S (length vs)
    ∧ ∀ i, (i ≤ length vs)%nat →
        ∃ r q, tr !! i = Some (Sent r)
               ∧ req_method r = "GET"
               ∧ req_url r = [Fmt base; Lit suffix]
               ∧ req_params r = VDict q
               ∧ q !! "page" = Some (VInt (Z.of_nat i)).
Proof.
  intros Hs Hu He Hp Hk Hvs Hv.
  rewrite (fetch_paginated_data_loop _ _ _ _ _ _ _ Hs Hu He Hp).
  rewrite length_app, length_fmap. cbn [length].
  replace (S (length vs + S (length rest)))
    with (length vs + S (S (length rest)))%nat by lia.
  rewrite (fetch_pages_run _ _ _ _ _ _ Hp Hvs).
  rewrite (fetch_pages_page _ _ _ _ _ _ _ _ _ _ _ Hp Hv).
  rewrite after_after. cbn [after app].
  replace (1 + Z.of_nat (length vs) - 1)%Z
    with (1 - 1 + Z.of_nat (length vs))%Z by lia.
  rewrite app_nil_r, listing_requests_snoc.
  eexists. split; [reflexivity|]. split.
  - unfold listing_requests. rewrite length_fmap, length_seqZ. lia.
  - intros i Hi.
    destruct (listing_request_page [Fmt base; Lit suffix]
                (section_headers source) params (page_size params)
                (Z.of_nat i) Hk) as (q & Hq & Hpage).
    exists (listing_request [Fmt base; Lit suffix] (section_headers source)
              params (page_size params) (Z.of_nat i)), q.
    split; [|done].
    unfold listing_requests. rewrite list_lookup_fmap.
    rewrite (lookup_seqZ_lt _ _ i) by lia. simpl. do 3 f_equal.
Qed.

(** C6: when the replies are pages that say [last = false], followed by a
    reply with no usable data (the request failed, or the body is empty:
    any falsy value), [fetch_paginated_data] returns normally, with exactly
    the contents of the pages before that reply (nothing when it is the
    first reply), and sends no request after it. *)
Theorem fetch_paginated_data_partial config endpoint params source base
    suffix vs contents reply rest :
  config_section config "source" source →
  source !! "url" = Some base →
  ENDPOINTS !! endpoint = Some suffix →
  usable_params params →
  Forall2 (λ v c, is_page v c false) vs contents →
  truthy (received reply) = false →
  ∃ tr,
    fetch_paginated_data config endpoint params
      ((ReturnsJson <$> vs) ++ reply :: rest)
    = (Return (concat contents), rest, tr)
    ∧ length (requests_of tr) = S (length vs).
Proof.
  intros Hs Hu He Hp Hvs Hf.
  rewrite (fetch_paginated_data_loop _ _ _ _ _ _ _ Hs Hu He Hp).
  rewrite length_app, length_fmap. cbn [length].
  replace (S (length vs + S (length rest)))
    with (length vs + S (S (length rest)))%nat by lia.
  rewrite (fetch_pages_run _ _ _ _ _ _ Hp Hvs).
  rewrite (fetch_pages_no_data _ _ _ _ _ _ _ _ _ Hp Hf).
  cbn [after app]. eexists. split; [reflexivity|].
  rewrite requests_of_app, requests_of_listing, requests_of_sent.
  rewrite requests_of_complaint.
  rewrite length_app, length_fmap, length_seqZ. simpl. lia.
Qed.

(** C7: after pages that say [last = false], a page ends the pagination if
    and only if its [last] flag is true, whatever its content, the empty
    array included: with the flag true the result is returned and no
    further request is sent; with the flag false the next page index is
    requested. *)
Theorem page_boundary_is_last_flag config endpoint params source base suffix
    vs contents v content last rest :
  config_section config "source" source →
  source !! "url" = Some base →
  ENDPOINTS !! endpoint = Some suffix →
  usable_params params →
  keeps_page params →
  Forall2 (λ v c, is_page v c false) vs contents →
  is_page v content last →
  ∃ o unread tr,
    fetch_paginated_data config endpoint params
      ((ReturnsJson <$> vs) ++ ReturnsJson v :: rest)
    = (o, unread, tr)
    ∧ (length (requests_of tr) = S (length vs) ↔ last = true)
    ∧ (last = true →
       o = Return (concat contents ++ content) ∧ unread = rest)
    ∧ (last = false →
       ∃ r q, requests_of tr !! S (length vs) = Some r
              ∧ req_method r = "GET"
              ∧ req_url r = [Fmt base; Lit suffix]
              ∧ req_params r = VDict q
              ∧ q !! "page" = Some (VInt (Z.of_nat (S (length vs))))).
Proof.
  intros Hs Hu He Hp Hk Hvs Hv.
  rewrite (fetch_paginated_data_loop _ _ _ _ _ _ _ Hs Hu He Hp).
  rewrite length_app, length_fmap. cbn [length].
  replace (S (length vs + S (length rest)))
    with (length vs + S (S (length rest)))%nat by lia.
  rewrite (fetch_pages_run _ _ _ _ _ _ Hp Hvs).
  rewrite (fetch_pages_page _ _ _ _ _ _ _ _ _ _ _ Hp Hv).
  rewrite after_after.
  replace (1 + Z.of_nat (length vs) - 1)%Z
    with (1 - 1 + Z.of_nat (length vs))%Z by lia.
  rewrite listing_requests_snoc.
  destruct last.
  - cbn [after]. rewrite app_nil_r. do 3 eexists. split; [reflexivity|].
    rewrite requests_of_listing, length_fmap, length_seqZ.
    split; [split; [done|lia]|]. split; [done|]. intros [=].
  - destruct (fetch_pages_asks (length rest) [Fmt base; Lit suffix]
                (section_headers source) params (page_size params)
                (1 + Z.of_nat (length vs) + 1)
                (([] ++ concat contents) ++ content) rest Hp) as (o & unread & t & Hrun).
    rewrite Hrun. cbn [after]. do 3 eexists. split; [reflexivity|].
    rewrite requests_of_app, requests_of_listing, requests_of_sent.
    split; [|split; [intros [=]|intros _]].
    + rewrite length_app, length_fmap, length_seqZ. simpl.
      split; [lia|intros [=]].
    + destruct (listing_request_page [Fmt base; Lit suffix]
                  (section_headers source) params (page_size params)
                  (1 + Z.of_nat (length vs) + 1 - 1) Hk) as (q & Hq & Hpage).
      exists (listing_request [Fmt base; Lit suffix] (section_headers source)
                params (page_size params) (1 + Z.of_nat (length vs) + 1 - 1)), q.
      split; [|split; [done|split; [done|split; [done|]]]].
      * rewrite lookup_app_r; rewrite length_fmap, length_seqZ; [|lia].
        replace (S (length vs) - Z.to_nat (Z.of_nat (S (length vs))))%nat
          with 0%nat by lia.
        reflexivity.
      * rewrite Hpage. do 2 f_equal. lia.
Qed.


(** ** Connection records *)

Lemma named_inv v :
  named v → ∃ d s, v = VDict d ∧ d !! "name" = Some (VStr s)
                   ∧ record_name v = Some (lower s).
Proof.
  intros [name Hn]. destruct v as [| | | | |d]; try done. simpl in *.
  destruct (d !! "name") as [[| | |s| |]|] eqn:Hd; try done. eauto.
Qed.

Lemma last_named_Some name records v :
  last_named name records = Some v →
  v ∈ records ∧ record_name v = Some name.
Proof.
  induction records as [|w records IH]; [done|]. simpl.
  destruct (last_named name records) as [u|].
  - intros [= ->]. destruct IH as [? ?]; [done|]. split; [by right|done].
  - case_decide; [|done]. intros [= ->]. split; [by left|done].
Qed.

Lemma last_named_is_Some name records :
  is_Some (last_named name records) ↔ name ∈ omap record_name records.
Proof.
  induction records as [|w records IH]; simpl.
  - split; [by intros [? ?]|by intros ?%elem_of_nil].
  - destruct (last_named name records) as [u|] eqn:Hl.
    + split; [intros _|by eauto].
      destruct (record_name w); [right|]; apply IH; eauto.
    + case_decide as Hw.
      * rewrite Hw. split; [intros _; by left|by eauto].
      * split; [by intros [? ?]|]. intros Hin. exfalso.
        destruct (record_name w) as [n|].
        -- apply elem_of_cons in Hin as [->|Hin]; [done|].
           apply IH in Hin. by destruct Hin.
        -- apply IH in Hin. by destruct Hin.
Qed.

(** The last record of a name is the one after which the name does not
    occur again. *)
Lemma last_named_split name records v :
  last_named name records = Some v ↔
  ∃ before after,
    records = before ++ v :: after
    ∧ record_name v = Some name
    ∧ Forall (λ w, record_name w ≠ Some name) after.
Proof.
  split.
  - revert v. induction records as [|w records IH]; [done|]. simpl. intros v.
    destruct (last_named name records) as [u|] eqn:Hl.
    + intros [= ->]. destruct (IH v eq_refl) as (before & after & -> & ? & ?).
      by exists (w :: before), after.
    + case_decide as Hw; [|done]. intros [= ->]. exists [], records.
      split; [done|]. split; [done|].
      apply Forall_forall. intros u Hu Hname.
      assert (is_Some (last_named name records)) as [? ?]; [|congruence].
      apply last_named_is_Some, list_elem_of_omap. eauto.
  - intros (before & after & -> & Hv & Hafter).
    induction before as [|w before IH]; simpl.
    + assert (last_named name after = None) as ->.
      { destruct (last_named name after) as [u|] eqn:Hl; [|done].
        apply last_named_Some in Hl as [Hin Hu].
        eapply Forall_forall in Hafter; [|done]. done. }
      by rewrite decide_True.
    + by rewrite IH.
Qed.

(** The dict comprehension keeps, for every key, the last record of that
    name. *)
Lemma name_map_lookup records :
  Forall named records →
  ∀ acc, ∃ m,
    name_map records acc = inr m
    ∧ ∀ key, m !! key = match last_named key records with
                        | Some v => Some v
                        | None => acc !! key
                        end.
Proof.
  induction 1 as [|v records Hv _ IH]; intros acc; simpl.
  - by exists acc.
  - destruct (named_inv _ Hv) as (d & s & -> & Hd & Hname).
    simpl py_getitem. rewrite Hd. simpl.
    destruct (IH (<[lower s := VDict d]> acc)) as (m & -> & Hm).
    exists m. split; [done|]. intros key. rewrite Hm.
    destruct (last_named key records); [done|].
    rewrite Hd. case_decide as Hk.
    + injection Hk as ->. apply lookup_insert_eq.
    + apply lookup_insert_ne. congruence.
Qed.

Lemma name_map_dom records m :
  Forall named records →
  name_map records ∅ = inr m →
  dom m = list_to_set (omap record_name records)
  ∧ ∀ key, m !! key = last_named key records.
Proof.
  intros Hn Hm. destruct (name_map_lookup _ Hn ∅) as (m' & Hm' & Hl).
  assert (m' = m) as -> by congruence.
  assert (∀ key, m !! key = last_named key records) as Hl'.
  { intros key. rewrite Hl. by destruct (last_named key records). }
  split; [|done]. apply set_eq. intros key.
  rewrite elem_of_dom, Hl', elem_of_list_to_set. apply last_named_is_Some.
Qed.

Lemma secret_fields_elem key :
  key ∈ secret_fields
  ↔ key = "password" ∨ key = "port" ∨ key = "host" ∨ key = "user".
Proof.
  unfold secret_fields. rewrite !elem_of_cons, elem_of_nil. tauto.
Qed.

(** The overlay, field by field. *)
Lemma overlay_lookup source_db config_db key :
  overlay source_db config_db !! key
  = if decide (key ∈ secret_fields)
    then Some (default VNone (config_db !! key))
    else source_db !! key.
Proof.
  unfold overlay, secrets. rewrite lookup_union.
  cbn [secret_fields fmap list_fmap list_to_map foldr uncurry fst snd curry].
  destruct (decide (key ∈ secret_fields)) as [Hin|Hout].
  - apply secret_fields_elem in Hin as [-> | [-> | [-> | ->]]];
      rewrite ?(lookup_insert_ne (M:=gmap string)) by done;
      rewrite lookup_insert_eq; by destruct (source_db !! _).
  - rewrite secret_fields_elem in Hout.
    rewrite !lookup_insert_ne, lookup_empty by (intros ?; subst; apply Hout; auto).
    by destruct (source_db !! key).
Qed.

(** The payload that the code builds is the overlay. *)
Lemma payload_overlay source_db config_db :
  <["user" := default VNone (config_db !! "user")]>
    (<["host" := default VNone (config_db !! "host")]>
      (<["port" := default VNone (config_db !! "port")]>
        (<["password" := default VNone (config_db !! "password")]> source_db)))
  = overlay source_db config_db.
Proof.
  apply map_eq. intros key. rewrite overlay_lookup.
  destruct (decide (key ∈ secret_fields)) as [Hin|Hout].
  - apply secret_fields_elem in Hin as [-> | [-> | [-> | ->]]];
      rewrite ?(lookup_insert_ne (M:=gmap string)) by done;
      by rewrite lookup_insert_eq.
  - rewrite secret_fields_elem in Hout.
    by rewrite !lookup_insert_ne by (intros ?; subst; apply Hout; auto).
Qed.


(** ** The reconciler *)

Lemma created_app t1 t2 : created (t1 ++ t2) = created t1 ++ created t2.
Proof.
  unfold created. by rewrite requests_of_app, filter_app, fmap_app.
Qed.

Lemma created_post url headers json params t :
  created (Sent (Request "POST" url headers json params) :: t)
  = json :: created t.
Proof. unfold created. rewrite requests_of_sent. by rewrite filter_cons_True. Qed.

Lemma created_get url headers json params t :
  created (Sent (Request "GET" url headers json params) :: t) = created t.
Proof. unfold created. rewrite requests_of_sent. by rewrite filter_cons_False. Qed.

Lemma created_printed line t : created (Printed line :: t) = created t.
Proof. reflexivity. Qed.

Lemma created_complaint reply : created (complaint reply) = [].
Proof. by destruct reply. Qed.

Lemma created_connection_events headers api_url payload name reply :
  created (connection_events headers api_url payload name reply)
  = [payload name].
Proof.
  unfold connection_events.
  by rewrite created_post, created_app, created_complaint.
Qed.

Lemma created_connections headers api_url payload names replies :
  length names = length replies →
  created (concat (zip_with (connection_events headers api_url payload)
                     names replies))
  = payload <$> names.
Proof.
  revert replies. induction names as [|name names IH];
    intros [|reply replies] Hlen; try done.
  cbn [zip_with concat fmap list_fmap].
  rewrite created_app, created_connection_events, IH; [done|].
  simpl in Hlen. lia.
Qed.

(** The loop of [sync_connections] over names that both maps know: one
    POST per name, each answered by the next reply. *)
Lemma create_connections_run source_map config_map headers api_url payload :
  ∀ names replies rest,
    length names = length replies →
    Forall (λ name, ∃ s c,
              source_map !! name = Some (VDict s)
              ∧ config_map !! name = Some (VDict c)
              ∧ payload name = VDict (overlay s c)) names →
    create_connections names source_map config_map headers api_url
      (replies ++ rest)
    = (Return tt, rest,
       concat (zip_with (connection_events headers api_url payload)
                 names replies)).
Proof.
  induction names as [|name names IH]; intros [|reply replies] rest Hlen Hnames;
    try done.
  apply Forall_cons in Hnames as [(s & c & Hs & Hc & Hp) Hnames].
  cbn [create_connections py_getitem app]. rewrite Hs, Hc.
  rewrite !bind_lift_inr. cbn [py_mapping py_get]. rewrite !bind_lift_inr.
  rewrite payload_overlay, <- Hp.
  rewrite (bind_run _ _ _ _ _ _ (send_request_reply _ _ _ _ _ _ _)).
  assert (∀ script,
    ((if truthy (received reply)
      then print [Lit "Successfully created database connection for '";
                  Fmt (VStr name); Lit "'"]
      else print [Lit "Failed to create database connection for '";
                  Fmt (VStr name); Lit "'"]);;
     create_connections names source_map config_map headers api_url) script
    = after [Printed (connection_report name (received reply))]
        (create_connections names source_map config_map headers api_url
           script)) as ->.
  { intros script. unfold connection_report.
    destruct (truthy (received reply)); apply bind_print. }
  rewrite IH by (done || (simpl in Hlen; lia)).
  cbn [after zip_with concat]. unfold connection_events. cbn [app].
  by rewrite <- app_assoc.
Qed.

Lemma configured_databases_get config locals :
  configured_databases config locals →
  py_get config "databases" (VList []) = inr (VList locals).
Proof. intros (c & -> & Hc). simpl. by rewrite Hc. Qed.

Lemma common_names_named db_payload locals name :
  name ∈ common_names db_payload locals →
  is_Some (last_named name db_payload) ∧ is_Some (last_named name locals).
Proof.
  unfold common_names. rewrite elem_of_intersection, !elem_of_list_to_set.
  by rewrite !last_named_is_Some.
Qed.

(** The payload of a common name is the overlay of the last source record
    of that name with the last local record of that name. *)
Lemma merged_payload_common db_payload locals name :
  Forall named db_payload →
  Forall named locals →
  name ∈ common_names db_payload locals →
  ∃ s c,
    last_named name db_payload = Some (VDict s)
    ∧ last_named name locals = Some (VDict c)
    ∧ merged_payload db_payload locals name = VDict (overlay s c).
Proof.
  intros Hdb Hlocals [[v Hv] [w Hw]]%common_names_named.
  destruct (last_named_Some _ _ _ Hv) as [Hvin _].
  destruct (last_named_Some _ _ _ Hw) as [Hwin _].
  eapply Forall_forall in Hdb; [|exact Hvin].
  eapply Forall_forall in Hlocals; [|exact Hwin].
  destruct (named_inv _ Hdb) as (s & ? & -> & _).
  destruct (named_inv _ Hlocals) as (c & ? & -> & _).
  exists s, c. unfold merged_payload. by rewrite Hv, Hw.
Qed.

(** [sync_connections] on well-formed records and a script that answers
    every request: one POST per common name, in the order in which the set
    of common names is enumerated. *)
Lemma sync_connections_run db_payload config destination base locals replies
    rest :
  config_section config "destination" destination →
  destination !! "url" = Some base →
  configured_databases config locals →
  Forall named db_payload →
  Forall named locals →
  length replies = size (common_names db_payload locals) →
  sync_connections db_payload config (replies ++ rest)
  = (Return tt, rest,
     concat (zip_with
               (connection_events (section_headers destination)
                  [Fmt base; Lit "beta/audience/connection"]
                  (merged_payload db_payload locals))
               (iteration_order (common_names db_payload locals)) replies)).
Proof.
  intros Hs Hu Hc Hdb Hlocals Hlen. unfold sync_connections.
  rewrite (configured_databases_get _ _ Hc), bind_lift_inr.
  destruct (name_map_lookup _ Hdb ∅) as (sm & Hsm & _).
  destruct (name_map_lookup _ Hlocals ∅) as (cm & Hcm & _).
  destruct (name_map_dom _ _ Hdb Hsm) as [Hsdom Hslook].
  destruct (name_map_dom _ _ Hlocals Hcm) as [Hcdom Hclook].
  rewrite Hsm, bind_lift_inr. cbn [py_iter ebind]. rewrite Hcm, bind_lift_inr.
  rewrite (prepare_headers_section _ _ _ Hs), bind_lift_inr.
  rewrite (config_url_section _ _ _ _ Hs Hu). cbn [ebind].
  rewrite (get_endpoint_suffix _ "connections" "beta/audience/connection")
    by done.
  rewrite bind_lift_inr, Hsdom, Hcdom.
  fold (common_names db_payload locals).
  apply create_connections_run.
  - by rewrite iteration_order_perm, Hlen.
  - apply Forall_forall. intros name Hname.
    rewrite iteration_order_perm, elem_of_elements in Hname.
    destruct (merged_payload_common _ _ _ Hdb Hlocals Hname)
      as (s & c & Hv & Hw & Hm).
    exists s, c. by rewrite Hslook, Hclook.
Qed.


Lemma record_name_overlay s c :
  record_name (VDict (overlay s c)) = record_name (VDict s).
Proof.
  unfold record_name. rewrite overlay_lookup, decide_False; [done|].
  rewrite secret_fields_elem. by intros [?|[?|[?|?]]].
Qed.

(** In a list without duplicates whose elements [f] marks with themselves,
    at most one image carries a given mark. *)
Lemma filter_mark_length {A B} `{EqDecision A} (f : A → B)
    (mark : B → option A) (x : A) (l : list A) :
  NoDup l →
  (∀ y, y ∈ l → mark (f y) = Some y) →
  (length (filter (λ v, mark v = Some x) (f <$> l)) ≤ 1)%nat.
Proof.
  intros Hnd Hmark.
  assert (length (filter (λ v, mark v = Some x) (f <$> l))
          = if decide (x ∈ l) then 1%nat else 0%nat) as ->;
    [|case_decide; lia].
  induction Hnd as [|y l Hy Hnd IH]; [done|].
  rewrite fmap_cons, filter_cons, (Hmark y) by apply list_elem_of_here.
  assert (length (filter (λ v, mark v = Some x) (f <$> l))
          = if decide (x ∈ l) then 1%nat else 0%nat) as Hl
    by (apply IH; intros z Hz; apply Hmark; by right).
  destruct (decide (Some y = Some x)) as [[= ->]|Hne]; cbn [length]; rewrite Hl.
  - rewrite decide_False by done. rewrite decide_True by apply list_elem_of_here.
    done.
  - destruct (decide (x ∈ l)) as [Hin|Hout].
    + rewrite decide_True by (by right). done.
    + rewrite decide_False; [done|].
      intros [->|?]%elem_of_cons; [congruence|done].
Qed.

(** C2: on connection records (objects with a string [name]) and a
    destination that answers every request, [sync_connections] creates one
    payload for each name, compared lower-cased, that occurs both in the
    source list and in the configured [databases] list, and no other
    payload; the payload of a name has the fields of the source record of
    that name, but for [password], [port], [host] and [user], which it has
    with the values of the local record of that name. *)
Theorem sync_connections_merges_common db_payload config destination base
    locals replies rest :
  config_section config "destination" destination →
  destination !! "url" = Some base →
  configured_databases config locals →
  Forall named db_payload →
  Forall named locals →
  length replies = size (common_names db_payload locals) →
  ∃ tr,
    sync_connections db_payload config (replies ++ rest) = (Return tt, rest, tr)
    ∧ created tr
      ≡ₚ merged_payload db_payload locals
         <$> elements (common_names db_payload locals)
    ∧ (∀ name, name ∈ common_names db_payload locals →
        ∃ s c p,
          last_named name db_payload = Some (VDict s)
          ∧ last_named name locals = Some (VDict c)
          ∧ merged_payload db_payload locals name = VDict p
          ∧ ∀ key, p !! key = if decide (key ∈ secret_fields)
                              then Some (default VNone (c !! key))
                              else s !! key)
    ∧ ∀ v, v ∈ created tr →
        ∃ name, name ∈ common_names db_payload locals
                ∧ record_name v = Some name.
Proof.
  intros Hs Hu Hc Hdb Hlocals Hlen.
  rewrite (sync_connections_run _ _ _ _ _ _ _ Hs Hu Hc Hdb Hlocals Hlen).
  eexists. split; [reflexivity|].
  rewrite created_connections by (by rewrite iteration_order_perm, Hlen).
  split; [by rewrite iteration_order_perm|]. split.
  - intros name Hname.
    destruct (merged_payload_common _ _ _ Hdb Hlocals Hname)
      as (s & c & Hv & Hw & Hm).
    exists s, c, (overlay s c). repeat split; try done.
    apply overlay_lookup.
  - intros v (name & -> & Hname)%list_elem_of_fmap.
    rewrite iteration_order_perm, elem_of_elements in Hname.
    exists name. split; [done|].
    destruct (merged_payload_common _ _ _ Hdb Hlocals Hname)
      as (s & c & Hv & Hw & ->).
    rewrite record_name_overlay.
    by apply last_named_Some in Hv as [_ ?].
Qed.

(** C8: when the local record of a common name lacks one of the secret
    fields, [sync_connections] still returns normally and still creates
    the payload of that name, in which that field is present with the
    value [None]. *)
Theorem sync_connections_missing_secret db_payload config destination base
    locals replies rest name c field :
  config_section config "destination" destination →
  destination !! "url" = Some base →
  configured_databases config locals →
  Forall named db_payload →
  Forall named locals →
  length replies = size (common_names db_payload locals) →
  name ∈ common_names db_payload locals →
  last_named name locals = Some (VDict c) →
  field ∈ secret_fields →
  c !! field = None →
  ∃ tr p,
    sync_connections db_payload config (replies ++ rest) = (Return tt, rest, tr)
    ∧ merged_payload db_payload locals name = VDict p
    ∧ VDict p ∈ created tr
    ∧ p !! field = Some VNone.
Proof.
  intros Hs Hu Hc Hdb Hlocals Hlen Hname Hlast Hfield Hmissing.
  rewrite (sync_connections_run _ _ _ _ _ _ _ Hs Hu Hc Hdb Hlocals Hlen).
  destruct (merged_payload_common _ _ _ Hdb Hlocals Hname)
    as (s & c' & Hv & Hw & Hm).
  assert (c' = c) as -> by congruence.
  eexists _, (overlay s c). split; [reflexivity|]. split; [done|]. split.
  - rewrite created_connections by (by rewrite iteration_order_perm, Hlen).
    rewrite <- Hm. apply list_elem_of_fmap_2.
    by rewrite iteration_order_perm, elem_of_elements.
  - by rewrite overlay_lookup, decide_True, Hmissing.
Qed.

(** C9: the payload of a common name is built from the last source record
    and from the last local record that go by that name, in the order of
    the two lists, and at most one created payload goes by any one
    name. *)
Theorem sync_connections_last_wins db_payload config destination base locals
    replies rest :
  config_section config "destination" destination →
  destination !! "url" = Some base →
  configured_databases config locals →
  Forall named db_payload →
  Forall named locals →
  length replies = size (common_names db_payload locals) →
  ∃ tr,
    sync_connections db_payload config (replies ++ rest) = (Return tt, rest, tr)
    ∧ (∀ name, name ∈ common_names db_payload locals →
         ∃ s c before after before' after',
           db_payload = before ++ VDict s :: after
           ∧ record_name (VDict s) = Some name
           ∧ Forall (λ w, record_name w ≠ Some name) after
           ∧ locals = before' ++ VDict c :: after'
           ∧ record_name (VDict c) = Some name
           ∧ Forall (λ w, record_name w ≠ Some name) after'
           ∧ VDict (overlay s c) ∈ created tr)
    ∧ ∀ name,
        (length (filter (λ v, record_name v = Some name) (created tr)) ≤ 1)%nat.
Proof.
  intros Hs Hu Hc Hdb Hlocals Hlen.
  rewrite (sync_connections_run _ _ _ _ _ _ _ Hs Hu Hc Hdb Hlocals Hlen).
  eexists. split; [reflexivity|].
  rewrite created_connections by (by rewrite iteration_order_perm, Hlen).
  split.
  - intros name Hname.
    destruct (merged_payload_common _ _ _ Hdb Hlocals Hname)
      as (s & c & Hv & Hw & Hm).
    apply last_named_split in Hv as (before & after & ? & ? & ?).
    apply last_named_split in Hw as (before' & after' & ? & ? & ?).
    exists s, c, before, after, before', after'. repeat split; try done.
    rewrite <- Hm. apply list_elem_of_fmap_2.
    by rewrite iteration_order_perm, elem_of_elements.
  - intros name. rewrite iteration_order_perm.
    apply filter_mark_length; [apply NoDup_elements|].
    intros name' Hname'%elem_of_elements.
    destruct (merged_payload_common _ _ _ Hdb Hlocals Hname')
      as (s & c & Hv & Hw & ->).
    rewrite record_name_overlay.
    by apply last_named_Some in Hv as [_ ?].
Qed.


(** ** Configuration *)

Lemma py_in_dict key (d : gmap string value) :
  py_in key (VDict d) = inr (bool_decide (is_Some (d !! key))).
Proof.
  simpl. f_equal. apply bool_decide_ext, elem_of_dom.
Qed.

Lemma validate_fields_present c section s fields :
  c !! section = Some (VDict s) →
  Forall (λ field, is_Some (s !! field)) fields →
  validate_fields (VDict c) section fields = inr tt.
Proof.
  intros Hc. induction 1 as [|field fields [x Hx] _ IH]; [done|].
  cbn [validate_fields py_getitem]. rewrite Hc. cbn [ebind].
  by rewrite py_in_dict, bool_decide_eq_true_2 by eauto.
Qed.

Lemma validate_fields_missing c section s fields :
  c !! section = Some (VDict s) →
  Exists (λ field, s !! field = None) fields →
  ∃ what, validate_fields (VDict c) section fields = inl (KeyError what).
Proof.
  intros Hc. induction fields as [|field fields IH]; intros Hex.
  - by apply Exists_nil in Hex.
  - cbn [validate_fields py_getitem]. rewrite Hc. cbn [ebind].
    rewrite py_in_dict. destruct (s !! field) as [x|] eqn:Hx.
    + rewrite bool_decide_eq_true_2 by eauto. cbn [ebind negb].
      apply IH. apply Exists_cons in Hex as [?|?]; [congruence|done].
    + rewrite bool_decide_eq_false_2 by (by intros [? ?]). cbn [ebind negb].
      eauto.
Qed.

Lemma validate_sections_missing c sections :
  Forall (λ section, ∀ v, c !! section = Some v → ∃ s, v = VDict s) sections →
  Exists (λ section,
            c !! section = None
            ∨ ∃ s fields field,
                c !! section = Some (VDict s)
                ∧ required_fields !! section = Some fields
                ∧ field ∈ fields
                ∧ s !! field = None) sections →
  ∃ what, validate_sections (VDict c) sections = inl (KeyError what).
Proof.
  induction sections as [|section sections IH]; intros Hmap Hex.
  - by apply Exists_nil in Hex.
  - apply Forall_cons in Hmap as [Hsec Hmap].
    cbn [validate_sections]. rewrite py_in_dict.
    destruct (c !! section) as [v|] eqn:Hc.
    2: { rewrite bool_decide_eq_false_2 by (by intros [? ?]).
         cbn [ebind negb]. eauto. }
    rewrite bool_decide_eq_true_2 by eauto. cbn [ebind negb].
    destruct (Hsec v eq_refl) as [s ->].
    destruct (required_fields !! section) as [fields|] eqn:Hf;
      cbn [ebind]; [|by eauto].
    destruct (decide (Forall (λ field, is_Some (s !! field)) fields))
      as [Hall|Hsome].
    + rewrite (validate_fields_present _ _ _ _ Hc Hall). cbn [ebind].
      apply IH; [done|].
      apply Exists_cons in Hex as [[?|(s' & fields' & field & Hs & Hf' & Hin & Hnone)]|?];
        [congruence| |done].
      exfalso. assert (s' = s) as -> by congruence.
      assert (fields' = fields) as -> by congruence.
      eapply Forall_forall in Hall; [|exact Hin]. rewrite Hnone in Hall.
      by destruct Hall.
    + apply not_Forall_Exists in Hsome; [|apply _].
      destruct (validate_fields_missing c section s fields Hc) as [what ->].
      * eapply Exists_impl; [exact Hsome|]. intros field. simpl.
        by rewrite eq_None_not_Some.
      * cbn [ebind]. eauto.
Qed.

(** Validation raises as soon as something required is missing, whatever
    the other sections are. *)
Lemma validate_sections_raises c sections :
  Exists (λ section,
            c !! section = None
            ∨ ∃ s fields field,
                c !! section = Some (VDict s)
                ∧ required_fields !! section = Some fields
                ∧ field ∈ fields
                ∧ s !! field = None) sections →
  ∃ e, validate_sections (VDict c) sections = inl e.
Proof.
  induction sections as [|section sections IH]; intros Hex.
  - by apply Exists_nil in Hex.
  - cbn [validate_sections]. rewrite py_in_dict.
    destruct (c !! section) as [v|] eqn:Hc.
    2: { rewrite bool_decide_eq_false_2 by (by intros [? ?]).
         cbn [ebind negb]. eauto. }
    rewrite bool_decide_eq_true_2 by eauto. cbn [ebind negb].
    destruct (required_fields !! section) as [fields|] eqn:Hf;
      cbn [ebind]; [|by eauto].
    destruct (validate_fields (VDict c) section fields) as [e|[]] eqn:Hv;
      cbn [ebind]; [by eauto|].
    apply IH.
    apply Exists_cons in Hex
      as [[?|(s & fields' & field & Hs & Hf' & Hin & Hnone)]|?];
      [congruence| |done].
    exfalso. assert (fields' = fields) as -> by congruence.
    destruct (validate_fields_missing c section s fields Hs) as [what Hwhat];
      [|congruence].
    apply Exists_exists. eauto.
Qed.

(** C4: a configuration that lacks a required section, or a required field
    of a required section, makes [validate_config] raise, a [KeyError]
    when the required sections that are present are mappings; [main] ends
    with that exception before any flow starts: it has read no reply, sent
    no request and printed nothing. *)
Theorem main_rejects_incomplete_config c :
  lacks_required c →
  ∃ e,
    validate_config (VDict c) = inl e
    ∧ (sections_are_mappings c → ∃ what, e = KeyError what)
    ∧ ∀ script,
        main (VDict c) script = (Raise e, script, [])
        ∧ requests_of (trace_of (main (VDict c) script)) = [].
Proof.
  intros Hlacks.
  destruct (validate_sections_raises c required_sections Hlacks) as [e He].
  exists e. split; [done|]. split.
  - intros Hmap.
    destruct (validate_sections_missing c required_sections Hmap Hlacks)
      as [what Hwhat].
    exists what. unfold validate_config in *. congruence.
  - intros script. unfold main, validate_config. rewrite He.
    by rewrite bind_lift_inl.
Qed.


(** ** The per-record operations *)

Lemma endpoint_url config key section base endpoint suffix :
  config_section config key section →
  section !! "url" = Some base →
  ENDPOINTS !! endpoint = Some suffix →
  (check base_url <- config_url config key; get_endpoint base_url endpoint)
  = inr [Fmt base; Lit suffix].
Proof.
  intros Hs Hu He. rewrite (config_url_section _ _ _ _ Hs Hu). cbn [ebind].
  by apply get_endpoint_suffix.
Qed.

(** [fetch_content] returns whatever the reply is: the decoded body, or
    [None] after the complaint of [send_request]. *)
Lemma fetch_content_run config source base template_id reply script :
  config_section config "source" source →
  source !! "url" = Some base →
  fetch_content config template_id (reply :: script)
  = (Return (received reply), script,
     Sent (detail_request source base template_id) :: complaint reply).
Proof.
  intros Hs Hu. unfold fetch_content.
  rewrite (endpoint_url _ _ _ _ "templates" "beta/template" Hs Hu) by done.
  rewrite bind_lift_inr, (prepare_headers_section _ _ _ Hs), bind_lift_inr.
  apply send_request_reply.
Qed.

(** [create_template] returns whatever the reply is, and reports. *)
Lemma create_template_run config destination base template_data reply script :
  config_section config "destination" destination →
  destination !! "url" = Some base →
  create_template config template_data (reply :: script)
  = (Return (if truthy (received reply) then received reply else VNone),
     script,
     Sent (create_request destination base "beta/template" template_data)
     :: complaint reply ++ [Printed (template_report (received reply))]).
Proof.
  intros Hs Hu. unfold create_template.
  rewrite (endpoint_url _ _ _ _ "templates" "beta/template" Hs Hu) by done.
  rewrite bind_lift_inr, (prepare_headers_section _ _ _ Hs), bind_lift_inr.
  rewrite (bind_run _ _ _ _ _ _ (send_request_reply _ _ _ _ _ _ _)).
  unfold template_report, create_request.
  destruct (truthy (received reply)); rewrite bind_print; unfold ret;
    cbn [after app]; by rewrite ?app_nil_r.
Qed.

(** [create_audience], on a record that has a name, returns whatever the
    reply is, and reports. *)
Lemma create_audience_run config destination base audience_data name reply
    script :
  config_section config "destination" destination →
  destination !! "url" = Some base →
  py_getitem audience_data "name" = inr name →
  create_audience config audience_data (reply :: script)
  = (Return (if truthy (received reply) then received reply else VNone),
     script,
     Sent (create_request destination base "beta/audience/query" audience_data)
     :: complaint reply ++ [Printed (audience_report name (received reply))]).
Proof.
  intros Hs Hu Hn. unfold create_audience.
  rewrite (endpoint_url _ _ _ _ "audiences" "beta/audience/query" Hs Hu)
    by done.
  rewrite bind_lift_inr, (prepare_headers_section _ _ _ Hs), bind_lift_inr.
  rewrite (bind_run _ _ _ _ _ _ (send_request_reply _ _ _ _ _ _ _)).
  unfold audience_report, create_request. rewrite Hn.
  destruct (truthy (received reply));
    rewrite bind_lift_inr, bind_print; unfold ret;
    cbn [after app]; by rewrite ?app_nil_r.
Qed.

(** ** The loops of [main] *)

(** The templates loop on records that have an [id]: every record is
    visited, whatever the replies are. *)
Lemma for_template_in_run config source destination base_source
    base_destination :
  config_section config "source" source →
  source !! "url" = Some base_source →
  config_section config "destination" destination →
  destination !! "url" = Some base_destination →
  ∀ templates ids steps rest,
    Forall2 (λ template template_id,
               py_getitem template "id" = inr template_id) templates ids →
    length steps = length templates →
    for_template_in config templates
      (concat (template_replies <$> steps) ++ rest)
    = (Return tt, rest,
       concat (zip_with (template_events source destination base_source
                           base_destination) ids steps)).
Proof.
  intros Hs Hus Hd Hud templates ids steps rest Hids. revert steps.
  induction Hids as [|template template_id templates ids Hid _ IH];
    intros [|[detail creation] steps] Hlen; try done.
  cbn [for_template_in fmap list_fmap concat zip_with].
  rewrite Hid, bind_lift_inr, bind_print, bind_lift_inr.
  unfold template_replies at 1, template_events at 1. cbn [fst snd].
  destruct (truthy (received detail)) eqn:Ht; cbn [app].
  - rewrite (bind_run _ _ _ _ _ _
               (fetch_content_run _ _ _ _ _ _ Hs Hus)), Ht.
    rewrite bind_bind.
    rewrite (bind_run _ _ _ _ _ _
               (create_template_run _ _ _ _ _ _ Hd Hud)).
    rewrite bind_ret, IH by (simpl in Hlen; lia).
    cbn [after app]. do 3 f_equal. rewrite <- !app_assoc. cbn [app].
    by rewrite <- app_assoc.
  - rewrite (bind_run _ _ _ _ _ _
               (fetch_content_run _ _ _ _ _ _ Hs Hus)), Ht.
    rewrite bind_ret, IH by (simpl in Hlen; lia).
    cbn [after app]. do 3 f_equal. by rewrite app_nil_r.
Qed.

(** The audiences loop on records that have a [name]: every record is
    visited, whatever the replies are. *)
Lemma for_audience_in_run config destination base :
  config_section config "destination" destination →
  destination !! "url" = Some base →
  ∀ audiences names replies rest,
    Forall2 (λ audience name, py_getitem audience "name" = inr name)
      audiences names →
    length replies = length audiences →
    for_audience_in config audiences (replies ++ rest)
    = (Return tt, rest,
       concat (zip_with (λ '(audience, name),
                           audience_events destination base audience name)
                 (zip audiences names) replies)).
Proof.
  intros Hd Hud audiences names replies rest Hnames. revert replies.
  induction Hnames as [|audience name audiences names Hname _ IH];
    intros [|reply replies] Hlen; try done.
  cbn [for_audience_in app zip zip_with concat].
  rewrite Hname, bind_lift_inr, bind_print.
  rewrite (bind_run _ _ _ _ _ _
             (create_audience_run _ _ _ _ _ _ _ Hd Hud Hname)).
  rewrite IH by (simpl in Hlen; lia).
  cbn [after app]. unfold audience_events. cbn [app].
  by rewrite <- ?app_assoc.
Qed.


Lemma complaint_failed reply :
  failed reply →
  ∃ notice, complaint reply = [Printed notice] ∧ failure_notice notice = true.
Proof. destruct reply; [done|..]; intros _; by eexists. Qed.

Lemma failed_falsy reply : failed reply → truthy (received reply) = false.
Proof. by destruct reply. Qed.

Lemma complaint_decoded body : complaint (ReturnsJson body) = [].
Proof. reflexivity. Qed.

Lemma template_report_failure response :
  truthy response = false → failure_notice (template_report response) = true.
Proof. unfold template_report. by intros ->. Qed.

Lemma audience_report_failure name response :
  truthy response = false →
  failure_notice (audience_report name response) = true.
Proof. unfold audience_report. by intros ->. Qed.

Lemma connection_report_failure name response :
  truthy response = false →
  failure_notice (connection_report name response) = true.
Proof. unfold connection_report. by intros ->. Qed.

Lemma created_template_events source destination base_source base_destination
    template_id step :
  created (template_events source destination base_source base_destination
             template_id step)
  = if truthy (received step.1) then [received step.1] else [].
Proof.
  unfold template_events. cbn [app].
  rewrite created_printed. unfold detail_request. rewrite created_get.
  rewrite created_app, created_complaint. cbn [app].
  destruct (truthy (received step.1)); [|done].
  unfold create_request.
  by rewrite created_post, created_app, created_complaint.
Qed.

Lemma created_templates source destination base_source base_destination ids :
  ∀ steps,
    length steps = length ids →
    created (concat (zip_with (template_events source destination base_source
                                 base_destination) ids steps))
    = filter (λ v, truthy v = true) ((λ step, received step.1) <$> steps).
Proof.
  induction ids as [|template_id ids IH]; intros [|step steps] Hlen; try done.
  cbn [zip_with concat fmap list_fmap].
  rewrite created_app, created_template_events, filter_cons.
  rewrite IH by (simpl in Hlen; lia).
  destruct (truthy (received step.1)) eqn:Ht.
  - by rewrite decide_True.
  - by rewrite decide_False.
Qed.

(** C3, amended: in the templates flow, on template records that have an
    [id], every record is visited: its detail is requested and, exactly
    when the detail that comes back is truthy, a create request with that
    detail is sent.  When the detail request of a record fails (transport
    or decoding error), no create request is sent for it, the complaint of
    [send_request] is printed, and the loop goes on with the next record.
    When the detail is decoded but falsy, no create request is sent for it
    either and nothing is printed about it. *)
Theorem templates_flow_creates_truthy_details config source destination
    base_source base_destination templates ids steps rest :
  config_section config "source" source →
  source !! "url" = Some base_source →
  config_section config "destination" destination →
  destination !! "url" = Some base_destination →
  Forall2 (λ template template_id,
             py_getitem template "id" = inr template_id) templates ids →
  length steps = length templates →
  ∃ tr,
    for_template_in config templates (concat (template_replies <$> steps) ++ rest)
    = (Return tt, rest, tr)
    ∧ tr = concat (zip_with (template_events source destination base_source
                               base_destination) ids steps)
    ∧ created tr
      = filter (λ v, truthy v = true) ((λ step, received step.1) <$> steps)
    ∧ ∀ template_id step,
        (failed step.1 →
         ∃ notice,
           failure_notice notice = true
           ∧ template_events source destination base_source base_destination
               template_id step
             = [Printed [Lit "Migrating Template ID: "; Fmt template_id];
                Sent (detail_request source base_source template_id);
                Printed notice])
        ∧ (∀ body, step.1 = ReturnsJson body → truthy body = false →
           template_events source destination base_source base_destination
             template_id step
           = [Printed [Lit "Migrating Template ID: "; Fmt template_id];
              Sent (detail_request source base_source template_id)]).
Proof.
  intros Hs Hus Hd Hud Hids Hlen.
  rewrite (for_template_in_run _ _ _ _ _ Hs Hus Hd Hud _ _ _ _ Hids Hlen).
  eexists. split; [reflexivity|]. split; [reflexivity|]. split.
  - apply created_templates. rewrite Hlen. by apply Forall2_length in Hids.
  - intros template_id [detail creation]. cbn [fst snd]. split.
    + intros Hfail. destruct (complaint_failed _ Hfail) as (notice & Hn & Hf).
      exists notice. split; [done|]. unfold template_events. cbn [fst snd].
      by rewrite (failed_falsy _ Hfail), Hn.
    + intros body -> Hfalsy. unfold template_events. cbn [fst snd received].
      by rewrite Hfalsy.
Qed.

(** C5: no failure of a per-record operation raises or stops a flow.
    [fetch_content], [create_template] and [create_audience] (on a record
    that has a name) return normally for every reply, and a failed request
    or a creation that did not succeed is reported by a printed line.  The
    templates loop, the audiences loop and [sync_connections] run to their
    end over all their records whatever the replies are: one detail request
    per template, one create request per audience, one create request per
    common connection name. *)
Theorem record_failures_do_not_abort config source destination base_source
    base_destination :
  config_section config "source" source →
  source !! "url" = Some base_source →
  config_section config "destination" destination →
  destination !! "url" = Some base_destination →
  (∀ template_id reply script,
     ∃ tr,
       fetch_content config template_id (reply :: script)
       = (Return (received reply), script, tr)
       ∧ (failed reply →
          ∃ notice, failure_notice notice = true ∧ Printed notice ∈ tr))
  ∧ (∀ template_data reply script,
       ∃ response tr,
         create_template config template_data (reply :: script)
         = (Return response, script, tr)
         ∧ (truthy (received reply) = false →
            response = VNone
            ∧ ∃ notice, failure_notice notice = true ∧ Printed notice ∈ tr))
  ∧ (∀ audience_data name reply script,
       py_getitem audience_data "name" = inr name →
       ∃ response tr,
         create_audience config audience_data (reply :: script)
         = (Return response, script, tr)
         ∧ (truthy (received reply) = false →
            response = VNone
            ∧ ∃ notice, failure_notice notice = true ∧ Printed notice ∈ tr))
  ∧ (∀ templates ids steps rest,
       Forall2 (λ template template_id,
                  py_getitem template "id" = inr template_id) templates ids →
       length steps = length templates →
       for_template_in config templates
         (concat (template_replies <$> steps) ++ rest)
       = (Return tt, rest,
          concat (zip_with (template_events source destination base_source
                              base_destination) ids steps)))
  ∧ (∀ audiences names replies rest,
       Forall2 (λ audience name, py_getitem audience "name" = inr name)
         audiences names →
       length replies = length audiences →
       ∃ tr,
         for_audience_in config audiences (replies ++ rest)
         = (Return tt, rest, tr)
         ∧ tr = concat (zip_with (λ '(audience, name),
                                    audience_events destination base_destination
                                      audience name)
                          (zip audiences names) replies)
         ∧ created tr = audiences)
  ∧ (∀ db_payload locals replies rest,
       configured_databases config locals →
       Forall named db_payload →
       Forall named locals →
       length replies = size (common_names db_payload locals) →
       ∃ tr,
         sync_connections db_payload config (replies ++ rest)
         = (Return tt, rest, tr)
         ∧ tr = concat (zip_with
                          (connection_events (section_headers destination)
                             [Fmt base_destination;
                              Lit "beta/audience/connection"]
                             (merged_payload db_payload locals))
                          (iteration_order (common_names db_payload locals))
                          replies)
         ∧ length (created tr) = size (common_names db_payload locals)).
Proof.
  intros Hs Hus Hd Hud. repeat split.
  - intros template_id reply script.
    rewrite (fetch_content_run _ _ _ _ _ _ Hs Hus).
    eexists. split; [reflexivity|]. intros Hfail.
    destruct (complaint_failed _ Hfail) as (notice & -> & Hf).
    exists notice. split; [done|]. apply elem_of_cons. right. by left.
  - intros template_data reply script.
    rewrite (create_template_run _ _ _ _ _ _ Hd Hud).
    do 2 eexists. split; [reflexivity|]. intros Hfalsy. rewrite Hfalsy.
    split; [done|]. exists (template_report (received reply)).
    split; [by apply template_report_failure|].
    apply elem_of_cons. right. apply elem_of_app. right. by left.
  - intros audience_data name reply script Hname.
    rewrite (create_audience_run _ _ _ _ _ _ _ Hd Hud Hname).
    do 2 eexists. split; [reflexivity|]. intros Hfalsy. rewrite Hfalsy.
    split; [done|]. exists (audience_report name (received reply)).
    split; [by apply audience_report_failure|].
    apply elem_of_cons. right. apply elem_of_app. right. by left.
  - intros templates ids steps rest Hids Hlen.
    by apply (for_template_in_run _ _ _ _ _ Hs Hus Hd Hud).
  - intros audiences names replies rest Hnames Hlen.
    rewrite (for_audience_in_run _ _ _ Hd Hud _ _ _ _ Hnames Hlen).
    eexists. split; [reflexivity|]. split; [reflexivity|].
    clear Hs Hus Hd Hud. revert replies Hlen.
    induction Hnames as [|audience name audiences names Hname _ IH];
      intros [|reply replies] Hlen; try done.
    cbn [zip zip_with concat]. rewrite created_app. unfold audience_events at 1.
    cbn [app]. rewrite created_printed. unfold create_request.
    rewrite created_post, created_app, created_complaint. cbn [app].
    rewrite created_printed. cbn [created requests_of omap filter fmap app].
    rewrite IH by (simpl in Hlen; lia). done.
  - intros db_payload locals replies rest Hc Hdb Hlocals Hlen.
    rewrite (sync_connections_run _ _ _ _ _ _ _ Hd Hud Hc Hdb Hlocals Hlen).
    eexists. split; [reflexivity|]. split; [reflexivity|].
    rewrite created_connections by (by rewrite iteration_order_perm, Hlen).
    by rewrite length_fmap, iteration_order_perm.
Qed.


(** ** The requests of a flow *)

Lemma trace_of_after {A} t (r : outcome A * list http_result * list event) :
  trace_of (after t r) = t ++ trace_of r.
Proof. by destruct r as [[o u] t']. Qed.

Lemma sends_only_ret {A} P (a : A) : sends_only P (ret a).
Proof. intros script. apply Forall_nil_2. Qed.

Lemma sends_only_lift {A} P (m : exn + A) : sends_only P (lift m).
Proof. intros script. destruct m; apply Forall_nil_2. Qed.

Lemma sends_only_print P line : sends_only P (print line).
Proof. intros script. apply Forall_nil_2. Qed.

Lemma sends_only_bind {A B} P (m : io A) (k : A → io B) :
  sends_only P m → (∀ a, sends_only P (k a)) → sends_only P (bind m k).
Proof.
  intros Hm Hk script. specialize (Hm script). unfold bind.
  destruct (m script) as [[[a| e |] u] t]; try done.
  rewrite trace_of_after, requests_of_app. apply Forall_app. split; [done|].
  apply Hk.
Qed.

Lemma sends_only_bind_lift {A B} P (m : exn + A) (k : A → io B) :
  (∀ a, m = inr a → sends_only P (k a)) → sends_only P (bind (lift m) k).
Proof.
  intros Hk script. rewrite bind_lift. destruct m as [e|a].
  - apply Forall_nil_2.
  - by apply Hk.
Qed.

Lemma sends_only_impl {A} (P Q : request → Prop) (m : io A) :
  (∀ r, P r → Q r) → sends_only P m → sends_only Q m.
Proof. intros HPQ Hm script. eapply Forall_impl; [apply Hm|done]. Qed.

Lemma sends_only_send_request P method url headers json params :
  P (Request method url headers json params) →
  sends_only P (send_request method url headers json params).
Proof.
  intros HP [|reply script].
  - rewrite send_request_awaiting. by apply Forall_singleton.
  - rewrite send_request_reply. cbn [trace_of snd].
    rewrite requests_of_sent, requests_of_complaint. by apply Forall_singleton.
Qed.

Lemma endpoint_url_inv config key endpoint url :
  (check base_url <- config_url config key; get_endpoint base_url endpoint)
  = inr url →
  ∃ base suffix, ENDPOINTS !! endpoint = Some suffix
                 ∧ url = [Fmt base; Lit suffix].
Proof.
  destruct (config_url config key) as [e|base]; [done|]. cbn [ebind].
  unfold get_endpoint. destruct (ENDPOINTS !! endpoint) as [suffix|]; [|done].
  intros [= <-]. eauto.
Qed.

Lemma get_endpoint_inv base endpoint url :
  get_endpoint base endpoint = inr url →
  ∃ suffix, ENDPOINTS !! endpoint = Some suffix ∧ url = [Fmt base; Lit suffix].
Proof.
  unfold get_endpoint. destruct (ENDPOINTS !! endpoint) as [suffix|]; [|done].
  intros [= <-]. eauto.
Qed.

Lemma fetch_pages_sends_only P fuel url headers params size :
  (∀ q, P (Request "GET" url headers VNone q)) →
  ∀ page acc, sends_only P (fetch_pages fuel url headers params size page acc).
Proof.
  intros HP. induction fuel as [|fuel IH]; intros page acc.
  - intros script. apply Forall_nil_2.
  - rewrite fetch_pages_unfold.
    apply sends_only_bind_lift. intros q _.
    apply sends_only_bind; [by apply sends_only_send_request|]. intros data.
    destruct (negb (truthy data)); [apply sends_only_ret|].
    apply sends_only_bind_lift. intros content _.
    apply sends_only_bind_lift. intros last _.
    destruct (truthy last); [apply sends_only_ret|apply IH].
Qed.

(** The requests of [fetch_paginated_data] go to the endpoint it is given. *)
Lemma fetch_paginated_data_sends_only P config endpoint params :
  (∀ base suffix headers q,
     ENDPOINTS !! endpoint = Some suffix →
     P (Request "GET" [Fmt base; Lit suffix] headers VNone q)) →
  sends_only P (fetch_paginated_data config endpoint params).
Proof.
  intros HP. unfold fetch_paginated_data.
  apply sends_only_bind_lift. intros base _.
  apply sends_only_bind_lift. intros url (suffix & He & ->)%get_endpoint_inv.
  apply sends_only_bind_lift. intros headers _.
  apply sends_only_bind_lift. intros size _.
  intros script. apply fetch_pages_sends_only. intros q. by apply HP.
Qed.

Lemma fetch_content_sends_only config template_id :
  sends_only (of_flow "templates") (fetch_content config template_id).
Proof.
  unfold fetch_content.
  apply sends_only_bind_lift.
  intros url (base & suffix & [= <-] & ->)%endpoint_url_inv.
  apply sends_only_bind_lift. intros headers _.
  by apply sends_only_send_request.
Qed.

Lemma create_template_sends_only config template_data :
  sends_only (of_flow "templates") (create_template config template_data).
Proof.
  unfold create_template.
  apply sends_only_bind_lift.
  intros url (base & suffix & [= <-] & ->)%endpoint_url_inv.
  apply sends_only_bind_lift. intros headers _.
  apply sends_only_bind; [by apply sends_only_send_request|]. intros response.
  destruct (truthy response);
    (apply sends_only_bind; [apply sends_only_print|intros _; apply sends_only_ret]).
Qed.

Lemma create_audience_sends_only config audience_data :
  sends_only (of_flow "audiences") (create_audience config audience_data).
Proof.
  unfold create_audience.
  apply sends_only_bind_lift.
  intros url (base & suffix & [= <-] & ->)%endpoint_url_inv.
  apply sends_only_bind_lift. intros headers _.
  apply sends_only_bind; [by apply sends_only_send_request|]. intros response.
  destruct (truthy response);
    (apply sends_only_bind_lift; intros name _;
     apply sends_only_bind; [apply sends_only_print|intros _; apply sends_only_ret]).
Qed.

Lemma for_template_in_sends_only config templates :
  sends_only (of_flow "templates") (for_template_in config templates).
Proof.
  induction templates as [|template templates IH]; [apply sends_only_ret|].
  cbn [for_template_in].
  apply sends_only_bind_lift. intros shown_id _.
  apply sends_only_bind; [apply sends_only_print|]. intros _.
  apply sends_only_bind_lift. intros template_id _.
  apply sends_only_bind; [apply fetch_content_sends_only|]. intros template_data.
  apply sends_only_bind; [|done].
  destruct (truthy template_data); [|apply sends_only_ret].
  apply sends_only_bind; [apply create_template_sends_only|].
  intros _. apply sends_only_ret.
Qed.

Lemma for_audience_in_sends_only config audiences :
  sends_only (of_flow "audiences") (for_audience_in config audiences).
Proof.
  induction audiences as [|audience audiences IH]; [apply sends_only_ret|].
  cbn [for_audience_in].
  apply sends_only_bind_lift. intros name _.
  apply sends_only_bind; [apply sends_only_print|]. intros _.
  apply sends_only_bind; [apply create_audience_sends_only|done].
Qed.

Lemma create_connections_sends_only names source_map config_map headers base :
  sends_only (of_flow "databases")
    (create_connections names source_map config_map headers
       [Fmt base; Lit "beta/audience/connection"]).
Proof.
  induction names as [|name names IH]; [apply sends_only_ret|].
  cbn [create_connections].
  do 7 (apply sends_only_bind_lift; intros ? _).
  apply sends_only_bind; [by apply sends_only_send_request|]. intros response.
  apply sends_only_bind; [|done].
  destruct (truthy response); apply sends_only_print.
Qed.

Lemma sync_connections_sends_only db_payload config :
  sends_only (of_flow "databases") (sync_connections db_payload config).
Proof.
  unfold sync_connections.
  do 4 (apply sends_only_bind_lift; intros ? _).
  apply sends_only_bind_lift.
  intros url (base & suffix & [= <-] & ->)%endpoint_url_inv.
  apply create_connections_sends_only.
Qed.

(** A truthy flag read by [main] is a flag of the [migrating] section. *)
Lemma flag_set_intro config migrate_config flag v :
  py_get config "migrating" (VDict ∅) = inr migrate_config →
  py_get migrate_config flag (VBool false) = inr v →
  truthy v = true →
  flag_set config flag.
Proof.
  destruct config as [| | | | |c]; try done. cbn [py_get]. intros [= <-].
  destruct (c !! "migrating") as [[| | | | |m]|] eqn:Hc; try done;
    cbn [default from_option id py_get].
  - intros [= <-]. destruct (m !! flag) as [v|] eqn:Hm; [|done].
    intros Hv. by exists c, m, v.
  - intros [= <-]. by rewrite lookup_empty.
Qed.

(** C10: every request that [main] sends belongs, by the endpoint of its
    URL, to a flow whose flag is present in the [migrating] section and
    truthy.  A flow whose flag is absent or falsy sends no request, and
    without a [migrating] section no request is sent at all. *)
Theorem main_requests_only_for_set_flags config script :
  Forall (λ r, ∃ flag, flow_flag r = Some flag ∧ flag_set config flag)
    (requests_of (trace_of (main config script)))
  ∧ (∀ flag, ¬ flag_set config flag →
       Forall (λ r, flow_flag r ≠ Some flag)
         (requests_of (trace_of (main config script))))
  ∧ ((∀ c, config = VDict c → c !! "migrating" = None) →
     requests_of (trace_of (main config script)) = []).
Proof.
  assert (sends_only
            (λ r, ∃ flag, flow_flag r = Some flag ∧ flag_set config flag)
            (main config)) as Hmain.
  { unfold main.
    apply sends_only_bind_lift. intros _ _.
    apply sends_only_bind_lift. intros migrate_config Hm.
    apply sends_only_bind_lift. intros migrate_templates Ht.
    apply sends_only_bind.
    { destruct (truthy migrate_templates) eqn:Hflag; [|apply sends_only_ret].
      apply (sends_only_impl (of_flow "templates"));
        [intros r Hr; eauto using flag_set_intro|].
      apply sends_only_bind; [apply sends_only_print|]. intros _.
      apply sends_only_bind; [|intros; apply for_template_in_sends_only].
      apply fetch_paginated_data_sends_only. by intros ? ? ? ? [= <-]. }
    intros _.
    apply sends_only_bind_lift. intros migrate_audiences Ha.
    apply sends_only_bind.
    { destruct (truthy migrate_audiences) eqn:Hflag; [|apply sends_only_ret].
      apply (sends_only_impl (of_flow "audiences"));
        [intros r Hr; eauto using flag_set_intro|].
      apply sends_only_bind; [apply sends_only_print|]. intros _.
      apply sends_only_bind; [|intros; apply for_audience_in_sends_only].
      unfold fetch_audiences.
      apply sends_only_bind; [apply sends_only_print|]. intros _.
      apply fetch_paginated_data_sends_only. by intros ? ? ? ? [= <-]. }
    intros _.
    apply sends_only_bind_lift. intros migrate_databases Hd.
    destruct (truthy migrate_databases) eqn:Hflag; [|apply sends_only_ret].
    apply (sends_only_impl (of_flow "databases"));
      [intros r Hr; eauto using flag_set_intro|].
    apply sends_only_bind; [apply sends_only_print|]. intros _.
    apply sends_only_bind; [|intros; apply sync_connections_sends_only].
    apply fetch_paginated_data_sends_only. by intros ? ? ? ? [= <-]. }
  specialize (Hmain script). split; [done|]. split.
  - intros flag Hflag. eapply Forall_impl; [exact Hmain|].
    intros r (flag' & Hr & Hset) Hr'. congruence.
  - intros Hnone.
    destruct (requests_of (trace_of (main config script))) as [|r l]; [done|].
    apply Forall_cons in Hmain as [(flag & _ & c & m & v & -> & Hc & _) _].
    by rewrite (Hnone c eq_refl) in Hc.
Qed.


(** ** Further properties of the pagination *)

(** Whatever the replies are, the loop sends the listing requests of
    consecutive page indices and no other request. *)
Lemma fetch_pages_requests url headers params size fuel :
  usable_params params →
  ∀ page acc script,
    ∃ n, requests_of (trace_of (fetch_pages fuel url headers params size page
                                  acc script))
         = listing_request url headers params size
           <$> seqZ (page - 1) (Z.of_nat n).
Proof.
  intros Hp. induction fuel as [|fuel IH]; intros page acc script.
  - by exists 0%nat.
  - destruct script as [|reply script].
    + rewrite fetch_pages_unfold, (current_params_usable _ _ _ Hp), bind_lift_inr.
      unfold bind. rewrite send_request_awaiting. by exists 1%nat.
    + rewrite (fetch_pages_reply _ _ _ _ _ _ _ _ _ Hp), trace_of_after.
      rewrite <- app_comm_cons, requests_of_sent, requests_of_app.
      rewrite requests_of_complaint. cbn [app].
      assert (∀ r : outcome (list value) * list http_result * list event,
                requests_of (trace_of r) = [] →
                ∃ n, listing_request url headers params size (page - 1)
                     :: requests_of (trace_of r)
                     = listing_request url headers params size
                       <$> seqZ (page - 1) (Z.of_nat n)) as Hone.
      { intros r ->. by exists 1%nat. }
      destruct (negb (truthy (received reply))); [by apply Hone|].
      rewrite bind_lift. destruct (ebind _ _) as [e|content]; [by apply Hone|].
      rewrite bind_lift. destruct (py_get _ _ _) as [e|last]; [by apply Hone|].
      destruct (truthy last); [by apply Hone|].
      destruct (IH (page + 1)%Z (acc ++ content) script) as [n ->].
      exists (S n). rewrite Nat2Z.inj_succ, (seqZ_cons (page - 1)) by lia.
      rewrite fmap_cons. do 3 f_equal; lia.
Qed.

Lemma listing_request_size url headers params size index q :
  req_params (listing_request url headers params size index) = VDict q →
  q !! "size" = Some (default size (extra_params params !! "size")).
Proof.
  intros [= <-]. rewrite lookup_union.
  rewrite lookup_insert_ne, lookup_singleton_eq by done.
  by destruct (extra_params params !! "size").
Qed.

(** X1: whatever the configuration, the extra parameters and the replies
    are, the requests of one pagination are the listing requests for the
    pages 0, 1, ..., n-1, for some n: GET requests without a body, all to
    the same URL, with the same headers and the same size (that of the
    extra parameters, or 100), and, unless the extra parameters redefine
    [page], the i-th of them asks for page i. *)
Theorem fetch_paginated_data_requests config endpoint params script :
  ∃ url headers n,
    requests_of (trace_of (fetch_paginated_data config endpoint params script))
    = listing_request url headers params (page_size params)
      <$> seqZ 0 (Z.of_nat n)
    ∧ Forall (λ r, req_method r = "GET" ∧ req_url r = url
                   ∧ req_headers r = headers ∧ req_json r = VNone
                   ∧ ∃ q, req_params r = VDict q
                          ∧ q !! "size" = Some (page_size params))
        (requests_of (trace_of (fetch_paginated_data config endpoint params
                                  script)))
    ∧ (keeps_page params →
       ∀ i r,
         requests_of (trace_of (fetch_paginated_data config endpoint params
                                  script)) !! i = Some r →
         ∃ q, req_params r = VDict q ∧ q !! "page" = Some (VInt (Z.of_nat i))).
Proof.
  assert (∃ url headers n,
            requests_of (trace_of (fetch_paginated_data config endpoint params
                                     script))
            = listing_request url headers params (page_size params)
              <$> seqZ 0 (Z.of_nat n)) as (url & headers & n & Hreq).
  { unfold fetch_paginated_data.
    rewrite bind_lift. destruct (config_url config "source") as [e|base];
      [by exists [], ∅, 0%nat|].
    rewrite bind_lift. destruct (get_endpoint base endpoint) as [e|url];
      [by exists [], ∅, 0%nat|].
    rewrite bind_lift. destruct (prepare_headers config "source") as [e|headers];
      [by exists [], ∅, 0%nat|].
    rewrite bind_lift.
    destruct (truthy params) eqn:Ht.
    - destruct params as [| | | | |p]; try by exists [], ∅, 0%nat.
      cbn [py_get].
      destruct (fetch_pages_requests url headers (VDict p)
                  (default (VInt 100) (p !! "size"))
                  (S (length script)) (or_intror (ex_intro _ p eq_refl))
                  1 [] script) as [n Hn].
      by exists url, headers, n.
    - destruct (fetch_pages_requests url headers params (VInt 100)
                  (S (length script)) (or_introl Ht) 1 [] script) as [n Hn].
      exists url, headers, n. rewrite Hn. unfold page_size.
      destruct params as [| | | | |p]; try done.
      by rewrite (truthy_dict_false _ Ht). }
  exists url, headers, n. split; [done|]. rewrite Hreq. split.
  - apply Forall_fmap, Forall_forall. intros i _. cbn.
    repeat split. eexists. split; [reflexivity|].
    rewrite (listing_request_size url headers params (page_size params) i _
               eq_refl).
    unfold page_size. by destruct (extra_params params !! "size").
  - intros Hk i r Hi. apply list_lookup_fmap_Some in Hi as (j & -> & Hj).
    apply lookup_seqZ in Hj as [-> _].
    destruct (listing_request_page url headers params (page_size params)
                (0 + Z.of_nat i) Hk) as (q & Hq & Hpage).
    exists q. split; [done|]. by rewrite Hpage.
Qed.

(** X2: extra parameters that define [page] override the page index of
    the loop: every request of the pagination asks for that same page. *)
Theorem fetch_paginated_data_page_overridden config endpoint p v script :
  p !! "page" = Some v →
  Forall (λ r, ∃ q, req_params r = VDict q ∧ q !! "page" = Some v)
    (requests_of (trace_of (fetch_paginated_data config endpoint (VDict p)
                              script))).
Proof.
  intros Hp.
  assert (∃ url headers n,
            requests_of (trace_of (fetch_paginated_data config endpoint
                                     (VDict p) script))
            = listing_request url headers (VDict p) (page_size (VDict p))
              <$> seqZ 0 (Z.of_nat n)) as (url & headers & n & ->).
  { unfold fetch_paginated_data.
    rewrite bind_lift. destruct (config_url config "source") as [e|base];
      [by exists [], ∅, 0%nat|].
    rewrite bind_lift. destruct (get_endpoint base endpoint) as [e|url];
      [by exists [], ∅, 0%nat|].
    rewrite bind_lift. destruct (prepare_headers config "source") as [e|headers];
      [by exists [], ∅, 0%nat|].
    rewrite bind_lift.
    rewrite (truthy_dict_lookup _ _ _ Hp). cbn [py_get].
    destruct (fetch_pages_requests url headers (VDict p)
                (default (VInt 100) (p !! "size"))
                (S (length script)) (or_intror (ex_intro _ p eq_refl))
                1 [] script) as [n Hn].
    by exists url, headers, n. }
  apply Forall_fmap, Forall_forall. intros i _. cbn.
  eexists. split; [reflexivity|]. by rewrite lookup_union_l'.
Qed.


Lemma is_page_loose v content last : is_page v content last → loose_page v content last.
Proof.
  intros (d & -> & Hc & Hl). exists d. split; [done|].
  split; [by apply (truthy_dict_lookup _ _ _ Hc)|]. by rewrite Hc, Hl.
Qed.

Lemma fetch_pages_loose_page fuel url headers params size page acc v content
    last script :
  usable_params params →
  loose_page v content last →
  fetch_pages (S fuel) url headers params size page acc
    (ReturnsJson v :: script)
  = after [Sent (listing_request url headers params size (page - 1))]
      (if last then (Return (acc ++ content), script, [])
       else fetch_pages fuel url headers params size (page + 1)
              (acc ++ content) script).
Proof.
  intros Hp (d & -> & Ht & Hc & Hl).
  rewrite (fetch_pages_reply _ _ _ _ _ _ _ _ _ Hp).
  cbn [received complaint]. rewrite Ht.
  cbn [negb py_get]. rewrite Hc. cbn [ebind py_iter].
  rewrite !bind_lift_inr, Hl. by destruct last.
Qed.

Lemma fetch_pages_loose_run url headers params size vs contents :
  usable_params params →
  Forall2 (λ v c, loose_page v c false) vs contents →
  ∀ fuel page acc script,
    fetch_pages (length vs + fuel) url headers params size page acc
      ((ReturnsJson <$> vs) ++ script)
    = after (listing_requests url headers params size (page - 1) (length vs))
        (fetch_pages fuel url headers params size (page + Z.of_nat (length vs))
           (acc ++ concat contents) script).
Proof.
  intros Hp Hpages. induction Hpages as [|v c vs contents Hv _ IH];
    intros fuel page acc script.
  - simpl. rewrite Z.add_0_r, app_nil_r. by rewrite after_nil.
  - cbn [length fmap list_fmap app concat Nat.add].
    rewrite (fetch_pages_loose_page _ _ _ _ _ _ _ _ _ _ _ Hp Hv).
    rewrite IH, after_after, listing_requests_S.
    rewrite Nat2Z.inj_succ, <- app_assoc.
    replace (page + 1 - 1)%Z with (page - 1 + 1)%Z by lia.
    replace (page + 1 + Z.of_nat (length vs))%Z
      with (page + Z.succ (Z.of_nat (length vs)))%Z by lia.
    done.
Qed.

(** The pagination up to the reply that follows pages that are not the
    last. *)
Lemma fetch_paginated_data_after_pages config endpoint params source base
    suffix vs contents tail :
  config_section config "source" source →
  source !! "url" = Some base →
  ENDPOINTS !! endpoint = Some suffix →
  usable_params params →
  Forall2 (λ v c, loose_page v c false) vs contents →
  fetch_paginated_data config endpoint params ((ReturnsJson <$> vs) ++ tail)
  = after (listing_requests [Fmt base; Lit suffix] (section_headers source)
             params (page_size params) 0 (length vs))
      (fetch_pages (S (length tail)) [Fmt base; Lit suffix]
         (section_headers source) params (page_size params)
         (1 + Z.of_nat (length vs)) (concat contents) tail).
Proof.
  intros Hs Hu He Hp Hvs.
  rewrite (fetch_paginated_data_loop _ _ _ _ _ _ _ Hs Hu He Hp).
  rewrite length_app, length_fmap.
  replace (S (length vs + length tail))
    with (length vs + S (length tail))%nat by lia.
  by rewrite (fetch_pages_loose_run _ _ _ _ _ _ Hp Hvs).
Qed.

(** X3: the loop tests [last] for truth and falls back on defaults: after
    non-empty objects whose [last] is absent or falsy, a non-empty object
    whose [last] is truthy (the boolean true, a non-zero number, a
    non-empty string) ends the pagination, and the result is the
    concatenation of the [content] arrays, an absent [content] counting
    as empty. *)
Theorem fetch_paginated_data_reads_pages_loosely config endpoint params source
    base suffix vs contents v final rest :
  config_section config "source" source →
  source !! "url" = Some base →
  ENDPOINTS !! endpoint = Some suffix →
  usable_params params →
  Forall2 (λ v c, loose_page v c false) vs contents →
  loose_page v final true →
  fetch_paginated_data config endpoint params
    ((ReturnsJson <$> vs) ++ ReturnsJson v :: rest)
  = (Return (concat contents ++ final), rest,
     listing_requests [Fmt base; Lit suffix] (section_headers source) params
       (page_size params) 0 (S (length vs))).
Proof.
  intros Hs Hu He Hp Hvs Hv.
  rewrite (fetch_paginated_data_after_pages _ _ _ _ _ _ _ _ _ Hs Hu He Hp Hvs).
  rewrite (fetch_pages_loose_page _ _ _ _ _ _ _ _ _ _ _ Hp Hv).
  rewrite after_after. cbn [after].
  replace (1 + Z.of_nat (length vs) - 1)%Z
    with (0 + Z.of_nat (length vs))%Z by lia.
  by rewrite app_nil_r, listing_requests_snoc.
Qed.

(** X4: the loop has no bound of its own: when none of the replies that
    come says that it is the last page, [fetch_paginated_data] does not
    return; after n such pages it has asked for page n and waits for the
    reply. *)
Theorem fetch_paginated_data_never_gives_up config endpoint params source base
    suffix vs contents :
  config_section config "source" source →
  source !! "url" = Some base →
  ENDPOINTS !! endpoint = Some suffix →
  usable_params params →
  Forall2 (λ v c, loose_page v c false) vs contents →
  fetch_paginated_data config endpoint params (ReturnsJson <$> vs)
  = (Awaiting, [],
     listing_requests [Fmt base; Lit suffix] (section_headers source) params
       (page_size params) 0 (S (length vs))).
Proof.
  intros Hs Hu He Hp Hvs.
  rewrite <- (app_nil_r (ReturnsJson <$> vs)).
  rewrite (fetch_paginated_data_after_pages _ _ _ _ _ _ _ _ _ Hs Hu He Hp Hvs).
  rewrite fetch_pages_unfold, (current_params_usable _ _ _ Hp), bind_lift_inr.
  unfold bind. rewrite send_request_awaiting. cbn [after].
  replace (1 + Z.of_nat (length vs) - 1)%Z
    with (0 + Z.of_nat (length vs))%Z by lia.
  by rewrite listing_requests_snoc.
Qed.

(** X5: a listing reply of the wrong shape makes [fetch_paginated_data]
    raise, and what the earlier pages contained is lost: a decoded body
    that is truthy but no object (a non-empty array, a number, a string)
    raises [AttributeError]; an object whose [content] is [null], a boolean
    or a number raises [TypeError]. *)
Theorem fetch_paginated_data_malformed_reply config endpoint params source
    base suffix vs contents v rest :
  config_section config "source" source →
  source !! "url" = Some base →
  ENDPOINTS !! endpoint = Some suffix →
  usable_params params →
  Forall2 (λ v c, loose_page v c false) vs contents →
  (truthy v = true → (∀ d, v ≠ VDict d) →
   fetch_paginated_data config endpoint params
     ((ReturnsJson <$> vs) ++ ReturnsJson v :: rest)
   = (Raise AttributeError, rest,
      listing_requests [Fmt base; Lit suffix] (section_headers source) params
        (page_size params) 0 (S (length vs))))
  ∧ (∀ d c, v = VDict d → d !! "content" = Some c →
       (c = VNone ∨ (∃ b, c = VBool b) ∨ (∃ z, c = VInt z)) →
       fetch_paginated_data config endpoint params
         ((ReturnsJson <$> vs) ++ ReturnsJson v :: rest)
       = (Raise TypeError, rest,
          listing_requests [Fmt base; Lit suffix] (section_headers source)
            params (page_size params) 0 (S (length vs)))).
Proof.
  intros Hs Hu He Hp Hvs.
  rewrite (fetch_paginated_data_after_pages _ _ _ _ _ _ _ _ _ Hs Hu He Hp Hvs).
  rewrite (fetch_pages_reply _ _ _ _ _ _ _ _ _ Hp), after_after.
  cbn [received complaint].
  replace (1 + Z.of_nat (length vs) - 1)%Z
    with (0 + Z.of_nat (length vs))%Z by lia.
  rewrite listing_requests_snoc. split.
  - intros Ht Hnd. rewrite Ht. cbn [negb].
    assert (py_get v "content" (VList []) = inl AttributeError) as ->.
    { destruct v; try done. by destruct (Hnd d). }
    cbn [ebind]. rewrite bind_lift_inl. cbn [after]. by rewrite app_nil_r.
  - intros d c -> Hc Hbad. rewrite (truthy_dict_lookup _ _ _ Hc).
    cbn [negb py_get]. rewrite Hc. cbn [default from_option id ebind].
    assert (py_iter c = inl TypeError) as ->.
    { by destruct Hbad as [->|[[b ->]|[z ->]]]. }
    rewrite bind_lift_inl. cbn [after]. by rewrite app_nil_r.
Qed.

(** X6: [fetch_paginated_data] raises before it sends anything when the
    configuration has no [source] section, when that section has no [url],
    or when the endpoint key is not one of [ENDPOINTS]. *)
Theorem fetch_paginated_data_missing_key (c : gmap string value) endpoint
    params script :
  (c !! "source" = None →
   fetch_paginated_data (VDict c) endpoint params script
   = (Raise (KeyError "source"), script, []))
  ∧ (∀ source, c !! "source" = Some (VDict source) → source !! "url" = None →
       fetch_paginated_data (VDict c) endpoint params script
       = (Raise (KeyError "url"), script, []))
  ∧ (∀ source base, c !! "source" = Some (VDict source) →
       source !! "url" = Some base →
       ENDPOINTS !! endpoint = None →
       fetch_paginated_data (VDict c) endpoint params script
       = (Raise (KeyError endpoint), script, [])).
Proof.
  unfold fetch_paginated_data, config_url, get_endpoint. cbn [py_getitem].
  split; [|split].
  - intros ->. by rewrite bind_lift.
  - intros source -> Hu. cbn [ebind py_getitem]. rewrite Hu. by rewrite bind_lift.
  - intros source base -> Hu He. cbn [ebind py_getitem]. rewrite Hu, bind_lift.
    by rewrite He, bind_lift.
Qed.


(** ** Further properties of the validation *)

Lemma validate_fields_ok c section s fields :
  c !! section = Some (VDict s) →
  validate_fields (VDict c) section fields = inr tt →
  Forall (λ field, is_Some (s !! field)) fields.
Proof.
  intros Hc Hv.
  destruct (decide (Forall (λ field, is_Some (s !! field)) fields))
    as [Hall|Hsome]; [done|].
  apply not_Forall_Exists in Hsome; [|apply _].
  destruct (validate_fields_missing c section s fields Hc) as [what Hwhat];
    [|congruence].
  eapply Exists_impl; [exact Hsome|]. intros field. simpl.
  by rewrite eq_None_not_Some.
Qed.

Lemma validate_sections_complete c sections :
  Forall (λ section,
            ∃ s fields,
              c !! section = Some (VDict s)
              ∧ required_fields !! section = Some fields
              ∧ Forall (λ field, is_Some (s !! field)) fields) sections →
  validate_sections (VDict c) sections = inr tt.
Proof.
  induction 1 as [|section sections (s & fields & Hc & Hf & Hall) _ IH];
    [done|].
  cbn [validate_sections]. rewrite py_in_dict, Hc.
  rewrite bool_decide_eq_true_2 by eauto. cbn [ebind negb]. rewrite Hf.
  cbn [ebind]. by rewrite (validate_fields_present _ _ _ _ Hc Hall).
Qed.

Lemma validate_sections_ok c sections :
  Forall (λ section, ∀ v, c !! section = Some v → ∃ s, v = VDict s) sections →
  validate_sections (VDict c) sections = inr tt →
  Forall (λ section,
            ∃ s fields,
              c !! section = Some (VDict s)
              ∧ required_fields !! section = Some fields
              ∧ Forall (λ field, is_Some (s !! field)) fields) sections.
Proof.
  induction 1 as [|section sections Hsec _ IH]; [done|].
  cbn [validate_sections]. rewrite py_in_dict.
  destruct (c !! section) as [v|] eqn:Hc.
  2: { by rewrite bool_decide_eq_false_2 by (by intros [? ?]). }
  rewrite bool_decide_eq_true_2 by eauto. cbn [ebind negb].
  destruct (Hsec v eq_refl) as [s ->].
  destruct (required_fields !! section) as [fields|] eqn:Hf; [|done].
  cbn [ebind].
  destruct (validate_fields (VDict c) section fields) as [e|[]] eqn:Hv; [done|].
  cbn [ebind]. intros Hrest. constructor; [|by apply IH].
  exists s, fields. eauto using validate_fields_ok.
Qed.

(** X7: on a configuration whose required sections, when present, are
    mappings, [validate_config] succeeds exactly when both sections are
    there and each has the fields [url], [ApiKey] and [CustomerId].  It
    looks at the presence of the fields only, not at their values. *)
Theorem validate_config_accepts_complete c :
  sections_are_mappings c →
  validate_config (VDict c) = inr tt ↔ complete_config c.
Proof.
  intros Hmap. split.
  - by apply validate_sections_ok.
  - apply validate_sections_complete.
Qed.

Lemma py_in_listed field l :
  VStr field ∈ l → py_in field (VList l) = inr true.
Proof.
  intros Hin. cbn [py_in]. f_equal. apply existsb_exists.
  exists (VStr field). split; [by apply list_elem_of_In|].
  by apply String.eqb_refl.
Qed.

(** X8: the presence tests of [validate_config] are [in] tests, which a
    list answers for its elements: a configuration whose [source] and
    [destination] are lists that contain the three field names passes the
    validation, although the sections are no mappings; every listing then
    raises [TypeError] before it sends a request. *)
Theorem validate_config_accepts_listed_sections c l1 l2 :
  c !! "source" = Some (VList l1) →
  c !! "destination" = Some (VList l2) →
  Forall (λ field, VStr field ∈ l1 ∧ VStr field ∈ l2)
    ["url"; "ApiKey"; "CustomerId"] →
  validate_config (VDict c) = inr tt
  ∧ ∀ endpoint params script,
      fetch_paginated_data (VDict c) endpoint params script
      = (Raise TypeError, script, []).
Proof.
  intros Hs Hd Hfields.
  apply Forall_cons in Hfields as [[Hu1 Hu2] Hfields].
  apply Forall_cons in Hfields as [[Ha1 Ha2] Hfields].
  apply Forall_cons in Hfields as [[Hc1 Hc2] _].
  split.
  - unfold validate_config, required_sections.
    cbn [validate_sections]. rewrite !py_in_dict, Hs, Hd.
    rewrite !bool_decide_eq_true_2 by eauto. cbn [ebind negb].
    assert (required_fields !! "source" = Some ["url"; "ApiKey"; "CustomerId"])
      as -> by done.
    assert (required_fields !! "destination"
            = Some ["url"; "ApiKey"; "CustomerId"]) as -> by done.
    cbn [ebind validate_fields py_getitem]. rewrite Hs, Hd. cbn [ebind].
    by rewrite !py_in_listed.
  - intros endpoint params script. unfold fetch_paginated_data, config_url.
    cbn [py_getitem]. rewrite Hs. cbn [ebind py_getitem].
    by rewrite bind_lift.
Qed.

Lemma lower_ApiKey : lower "ApiKey" ≠ "ApiKey".
Proof. done. Qed.

(** X9: [configparser] keeps the option names in lower case, and
    [validate_config] asks for [ApiKey]: a configuration that [load_ini]
    has loaded never passes the validation.  [validate_config] raises
    [KeyError], and [main] ends with it before any flow. *)
Theorem load_ini_never_validates (parsed : gmap string (gmap string string)) :
  (∀ section options option,
     parsed !! section = Some options →
     is_Some (options !! option) →
     lower option = option) →
  ∃ what,
    validate_config (load_ini parsed) = inl (KeyError what)
    ∧ ∀ script,
        main (load_ini parsed) script = (Raise (KeyError what), script, []).
Proof.
  intros Hlower.
  assert (∃ what, validate_config (load_ini parsed) = inl (KeyError what))
    as [what Hwhat].
  { apply validate_sections_missing.
    - unfold required_sections. repeat constructor;
        intros v; rewrite lookup_fmap;
        destruct (parsed !! _) as [options|]; simpl; intros [= <-]; eauto.
    - constructor. rewrite lookup_fmap.
      destruct (parsed !! "source") as [options|] eqn:Hp; simpl; [|by left].
      right. exists (VStr <$> options), ["url"; "ApiKey"; "CustomerId"], "ApiKey".
      split; [done|]. split; [done|]. split; [right; left|].
      rewrite lookup_fmap.
      destruct (options !! "ApiKey") as [x|] eqn:Ho; [|done].
      by destruct (lower_ApiKey (Hlower _ _ _ Hp (mk_is_Some _ _ Ho))). }
  exists what. split; [done|]. intros script.
  unfold main. by rewrite Hwhat, bind_lift_inl.
Qed.


(** ** Further properties of the reconciler and of the per-record code *)

Lemma name_error_raises v e :
  name_error v = Some e →
  (check name <- py_getitem v "name"; py_lower name) = inl e.
Proof.
  destruct v as [| | | | |d]; cbn; try by intros [= <-].
  destruct (d !! "name") as [[| | | | |]|]; cbn; by intros [= <-].
Qed.

(** The dict comprehension stops at the first record that it cannot
    name. *)
Lemma name_map_stops good v rest e :
  Forall named good →
  name_error v = Some e →
  ∀ acc, name_map (good ++ v :: rest) acc = inl e.
Proof.
  intros Hgood Hv. induction Hgood as [|w good Hw _ IH]; intros acc.
  - cbn [app name_map].
    pose proof (name_error_raises _ _ Hv) as Hraise.
    destruct (py_getitem v "name") as [e'|name]; cbn [ebind] in Hraise |- *;
      [congruence|].
    destruct (py_lower name); cbn [ebind] in Hraise |- *;
      [congruence|discriminate].
  - destruct (named_inv _ Hw) as (d & s & -> & Hd & _).
    cbn [app name_map py_getitem]. rewrite Hd. cbn [ebind py_lower]. apply IH.
Qed.

(** X10: one record without a usable name stops the reconciliation before
    any request: [sync_connections] raises [KeyError] for a source or local
    record that has no [name], [AttributeError] for one whose [name] is no
    string, [TypeError] for one that is no object, and creates nothing,
    also for the names that are common. *)
Theorem sync_connections_unnamed_record (c : gmap string value) good v rest e
    script :
  Forall named good →
  name_error v = Some e →
  sync_connections (good ++ v :: rest) (VDict c) script = (Raise e, script, [])
  ∧ ∀ db_payload,
      Forall named db_payload →
      c !! "databases" = Some (VList (good ++ v :: rest)) →
      sync_connections db_payload (VDict c) script = (Raise e, script, []).
Proof.
  intros Hgood Hv. split.
  - unfold sync_connections. cbn [py_get]. rewrite bind_lift_inr.
    by rewrite (name_map_stops _ _ _ _ Hgood Hv), bind_lift_inl.
  - intros db_payload Hdb Hc. unfold sync_connections. cbn [py_get].
    rewrite bind_lift_inr, Hc.
    destruct (name_map_lookup _ Hdb ∅) as (sm & -> & _).
    rewrite bind_lift_inr. cbn [default from_option id py_iter ebind].
    by rewrite (name_map_stops _ _ _ _ Hgood Hv), bind_lift_inl.
Qed.

Lemma zip_with_nil_r {A B C} (f : A → B → C) (l : list A) :
  zip_with f l [] = [].
Proof. by destruct l. Qed.

(** X11: when no name is common to the source list and the configured
    list, in particular when the source list is empty or when no
    [databases] are configured, [sync_connections] returns without
    sending a request, printing a line or reading a reply. *)
Theorem sync_connections_nothing_common db_payload config destination base
    locals script :
  config_section config "destination" destination →
  destination !! "url" = Some base →
  configured_databases config locals →
  Forall named db_payload →
  Forall named locals →
  common_names db_payload locals = ∅ →
  sync_connections db_payload config script = (Return tt, script, []).
Proof.
  intros Hs Hu Hc Hdb Hlocals Hnone.
  rewrite <- (app_nil_l script) at 1.
  rewrite (sync_connections_run _ _ _ _ _ [] _ Hs Hu Hc Hdb Hlocals)
    by (by rewrite Hnone).
  by rewrite zip_with_nil_r.
Qed.

(** X12: [create_audience] reads the name of the record only when it
    reports, after the request: on a record without [name] it sends the
    create request, whatever the reply is, and then raises [KeyError]. *)
Theorem create_audience_unnamed_record config destination base
    (d : gmap string value) reply script :
  config_section config "destination" destination →
  destination !! "url" = Some base →
  d !! "name" = None →
  create_audience config (VDict d) (reply :: script)
  = (Raise (KeyError "name"), script,
     Sent (create_request destination base "beta/audience/query" (VDict d))
     :: complaint reply).
Proof.
  intros Hs Hu Hd. unfold create_audience.
  rewrite (endpoint_url _ _ _ _ "audiences" "beta/audience/query" Hs Hu)
    by done.
  rewrite bind_lift_inr, (prepare_headers_section _ _ _ Hs), bind_lift_inr.
  rewrite (bind_run _ _ _ _ _ _ (send_request_reply _ _ _ _ _ _ _)).
  cbn [py_getitem]. rewrite Hd.
  destruct (truthy (received reply)); rewrite bind_lift_inl;
    cbn [after]; by rewrite app_nil_r.
Qed.

Lemma for_template_in_app config source destination base_source
    base_destination :
  config_section config "source" source →
  source !! "url" = Some base_source →
  config_section config "destination" destination →
  destination !! "url" = Some base_destination →
  ∀ templates ids steps more script,
    Forall2 (λ template template_id,
               py_getitem template "id" = inr template_id) templates ids →
    length steps = length templates →
    for_template_in config (templates ++ more)
      (concat (template_replies <$> steps) ++ script)
    = after (concat (zip_with (template_events source destination base_source
                                 base_destination) ids steps))
        (for_template_in config more script).
Proof.
  intros Hs Hus Hd Hud templates ids steps more script Hids. revert steps.
  induction Hids as [|template template_id templates ids Hid _ IH];
    intros [|[detail creation] steps] Hlen; try done.
  { cbn. by rewrite after_nil. }
  cbn [for_template_in fmap list_fmap concat zip_with app].
  rewrite Hid, bind_lift_inr, bind_print, bind_lift_inr.
  unfold template_replies at 1, template_events at 1. cbn [fst snd].
  destruct (truthy (received detail)) eqn:Ht; cbn [app].
  - rewrite (bind_run _ _ _ _ _ _
               (fetch_content_run _ _ _ _ _ _ Hs Hus)), Ht.
    rewrite bind_bind.
    rewrite (bind_run _ _ _ _ _ _
               (create_template_run _ _ _ _ _ _ Hd Hud)).
    rewrite bind_ret, IH by (simpl in Hlen; lia).
    rewrite !after_after.
    f_equal; try by repeat (progress (rewrite <- ?app_assoc; cbn [app])).
  - rewrite <- app_assoc.
    rewrite (bind_run _ _ _ _ _ _
               (fetch_content_run _ _ _ _ _ _ Hs Hus)), Ht.
    rewrite bind_ret, IH by (simpl in Hlen; lia).
    rewrite !after_after, ?app_nil_r.
    f_equal; try by repeat (progress (rewrite <- ?app_assoc; cbn [app])).
Qed.

Lemma for_audience_in_app config destination base :
  config_section config "destination" destination →
  destination !! "url" = Some base →
  ∀ audiences names replies more script,
    Forall2 (λ audience name, py_getitem audience "name" = inr name)
      audiences names →
    length replies = length audiences →
    for_audience_in config (audiences ++ more) (replies ++ script)
    = after (concat (zip_with (λ '(audience, name),
                                 audience_events destination base audience name)
                       (zip audiences names) replies))
        (for_audience_in config more script).
Proof.
  intros Hd Hud audiences names replies more script Hnames. revert replies.
  induction Hnames as [|audience name audiences names Hname _ IH];
    intros [|reply replies] Hlen; try done.
  { cbn. by rewrite after_nil. }
  cbn [for_audience_in app zip zip_with concat].
  rewrite Hname, bind_lift_inr, bind_print.
  rewrite (bind_run _ _ _ _ _ _
             (create_audience_run _ _ _ _ _ _ _ Hd Hud Hname)).
  rewrite IH by (simpl in Hlen; lia).
  rewrite !after_after. unfold audience_events.
  f_equal; try by repeat (progress (rewrite <- ?app_assoc; cbn [app])).
Qed.

(** X13: the loops of [main] read [template['id']] and [audience['name']]
    without a guard: the records before the first one that lacks the key
    are migrated, then the loop ends with the exception of the lookup,
    and neither that record nor the ones after it cause a request. *)
Theorem main_loops_stop_at_malformed_record config source destination
    base_source base_destination :
  config_section config "source" source →
  source !! "url" = Some base_source →
  config_section config "destination" destination →
  destination !! "url" = Some base_destination →
  (∀ templates ids steps bad e rest script,
     Forall2 (λ template template_id,
                py_getitem template "id" = inr template_id) templates ids →
     length steps = length templates →
     py_getitem bad "id" = inl e →
     for_template_in config (templates ++ bad :: rest)
       (concat (template_replies <$> steps) ++ script)
     = (Raise e, script,
        concat (zip_with (template_events source destination base_source
                            base_destination) ids steps)))
  ∧ (∀ audiences names replies bad e rest script,
       Forall2 (λ audience name, py_getitem audience "name" = inr name)
         audiences names →
       length replies = length audiences →
       py_getitem bad "name" = inl e →
       for_audience_in config (audiences ++ bad :: rest) (replies ++ script)
       = (Raise e, script,
          concat (zip_with (λ '(audience, name),
                              audience_events destination base_destination
                                audience name)
                    (zip audiences names) replies))).
Proof.
  intros Hs Hus Hd Hud. split.
  - intros templates ids steps bad e rest script Hids Hlen Hbad.
    rewrite (for_template_in_app _ _ _ _ _ Hs Hus Hd Hud _ _ _ _ _ Hids Hlen).
    cbn [for_template_in]. rewrite Hbad, bind_lift_inl. cbn [after].
    by rewrite app_nil_r.
  - intros audiences names replies bad e rest script Hnames Hlen Hbad.
    rewrite (for_audience_in_app _ _ _ Hd Hud _ _ _ _ _ Hnames Hlen).
    cbn [for_audience_in]. rewrite Hbad, bind_lift_inl. cbn [after].
    by rewrite app_nil_r.
Qed.


(** ** Further properties of [main] *)

Lemma sends_only_pointwise {A} P (m m' : io A) :
  (∀ script, m script = m' script) → sends_only P m' → sends_only P m.
Proof. intros Heq Hm script. rewrite Heq. apply Hm. Qed.

Lemma fetch_paginated_data_sends_source P config endpoint source base suffix :
  config_section config "source" source →
  source !! "url" = Some base →
  ENDPOINTS !! endpoint = Some suffix →
  (∀ q, P (Request "GET" [Fmt base; Lit suffix] (section_headers source)
             VNone q)) →
  sends_only P (fetch_paginated_data config endpoint VNone).
Proof.
  intros Hs Hu He HP script.
  rewrite (fetch_paginated_data_loop _ _ _ _ _ _ _ Hs Hu He)
    by (by left).
  by apply fetch_pages_sends_only.
Qed.

Lemma fetch_content_sends_source config source base template_id :
  config_section config "source" source →
  source !! "url" = Some base →
  sends_only (reads_source source base) (fetch_content config template_id).
Proof.
  intros Hs Hu script. unfold fetch_content.
  rewrite (endpoint_url _ _ _ _ "templates" "beta/template" Hs Hu) by done.
  rewrite bind_lift_inr, (prepare_headers_section _ _ _ Hs), bind_lift_inr.
  apply sends_only_send_request. repeat split. by eexists.
Qed.

Lemma create_template_sends_destination config destination base template_data :
  config_section config "destination" destination →
  destination !! "url" = Some base →
  sends_only (writes_destination destination base)
    (create_template config template_data).
Proof.
  intros Hs Hu script. unfold create_template.
  rewrite (endpoint_url _ _ _ _ "templates" "beta/template" Hs Hu) by done.
  rewrite bind_lift_inr, (prepare_headers_section _ _ _ Hs), bind_lift_inr.
  revert script. apply sends_only_bind.
  - apply sends_only_send_request. repeat split. by eexists.
  - intros response. destruct (truthy response);
      (apply sends_only_bind; [apply sends_only_print|intros _; apply sends_only_ret]).
Qed.

Lemma create_audience_sends_destination config destination base audience_data :
  config_section config "destination" destination →
  destination !! "url" = Some base →
  sends_only (writes_destination destination base)
    (create_audience config audience_data).
Proof.
  intros Hs Hu script. unfold create_audience.
  rewrite (endpoint_url _ _ _ _ "audiences" "beta/audience/query" Hs Hu)
    by done.
  rewrite bind_lift_inr, (prepare_headers_section _ _ _ Hs), bind_lift_inr.
  revert script. apply sends_only_bind.
  - apply sends_only_send_request. repeat split. by eexists.
  - intros response. destruct (truthy response);
      (apply sends_only_bind_lift; intros name _;
       apply sends_only_bind; [apply sends_only_print|intros _; apply sends_only_ret]).
Qed.

Lemma create_connections_sends P names source_map config_map headers api_url :
  (∀ json, P (Request "POST" api_url headers json VNone)) →
  sends_only P (create_connections names source_map config_map headers api_url).
Proof.
  intros HP. induction names as [|name names IH]; [apply sends_only_ret|].
  cbn [create_connections].
  do 7 (apply sends_only_bind_lift; intros ? _).
  apply sends_only_bind; [by apply sends_only_send_request|]. intros response.
  apply sends_only_bind; [|done].
  destruct (truthy response); apply sends_only_print.
Qed.

Lemma sync_connections_sends_destination db_payload config destination base :
  config_section config "destination" destination →
  destination !! "url" = Some base →
  sends_only (writes_destination destination base)
    (sync_connections db_payload config).
Proof.
  intros Hs Hu. unfold sync_connections.
  do 3 (apply sends_only_bind_lift; intros ? _).
  apply sends_only_bind_lift. intros headers Hh.
  rewrite (prepare_headers_section _ _ _ Hs) in Hh. injection Hh as <-.
  apply sends_only_bind_lift. intros url Hurl.
  rewrite (endpoint_url _ _ _ _ "connections" "beta/audience/connection" Hs Hu)
    in Hurl by done.
  injection Hurl as <-.
  apply create_connections_sends. intros json. repeat split. by eexists.
Qed.

(** X14: [main] keeps the two systems apart: on a configuration whose
    [source] and [destination] sections are mappings with a [url], whatever
    the flags and the replies are, every GET request goes to a URL under
    the source URL with the headers (the credentials) of the source
    section, every POST request goes to a URL under the destination URL
    with the headers of the destination section, and there is no other
    request. *)
Theorem main_keeps_systems_apart config source destination base_source
    base_destination script :
  config_section config "source" source →
  source !! "url" = Some base_source →
  config_section config "destination" destination →
  destination !! "url" = Some base_destination →
  Forall (λ r, reads_source source base_source r
               ∨ writes_destination destination base_destination r)
    (requests_of (trace_of (main config script))).
Proof.
  intros Hs Hus Hd Hud. revert script.
  set (P := λ r, reads_source source base_source r
                 ∨ writes_destination destination base_destination r).
  assert (∀ endpoint suffix,
            ENDPOINTS !! endpoint = Some suffix →
            sends_only P (fetch_paginated_data config endpoint VNone))
    as Hfetch.
  { intros endpoint suffix He.
    apply (fetch_paginated_data_sends_source P _ _ _ _ _ Hs Hus He).
    intros q. left. repeat split. by eexists. }
  assert (∀ templates, sends_only P (for_template_in config templates))
    as Htemplates.
  { induction templates as [|template templates IH]; [apply sends_only_ret|].
    cbn [for_template_in].
    apply sends_only_bind_lift. intros shown_id _.
    apply sends_only_bind; [apply sends_only_print|]. intros _.
    apply sends_only_bind_lift. intros template_id _.
    apply sends_only_bind.
    { apply (sends_only_impl (reads_source source base_source));
        [by left|by apply fetch_content_sends_source]. }
    intros template_data. apply sends_only_bind; [|done].
    destruct (truthy template_data); [|apply sends_only_ret].
    apply sends_only_bind; [|intros _; apply sends_only_ret].
    apply (sends_only_impl (writes_destination destination base_destination));
      [by right|by apply create_template_sends_destination]. }
  assert (∀ audiences, sends_only P (for_audience_in config audiences))
    as Haudiences.
  { induction audiences as [|audience audiences IH]; [apply sends_only_ret|].
    cbn [for_audience_in].
    apply sends_only_bind_lift. intros name _.
    apply sends_only_bind; [apply sends_only_print|]. intros _.
    apply sends_only_bind; [|done].
    apply (sends_only_impl (writes_destination destination base_destination));
      [by right|by apply create_audience_sends_destination]. }
  unfold main.
  apply sends_only_bind_lift. intros _ _.
  apply sends_only_bind_lift. intros migrate_config _.
  apply sends_only_bind_lift. intros migrate_templates _.
  apply sends_only_bind.
  { destruct (truthy migrate_templates); [|apply sends_only_ret].
    apply sends_only_bind; [apply sends_only_print|]. intros _.
    apply sends_only_bind; [by apply (Hfetch "templates" "beta/template")|].
    intros templates. apply Htemplates. }
  intros _.
  apply sends_only_bind_lift. intros migrate_audiences _.
  apply sends_only_bind.
  { destruct (truthy migrate_audiences); [|apply sends_only_ret].
    apply sends_only_bind; [apply sends_only_print|]. intros _.
    apply sends_only_bind; [|intros; apply Haudiences].
    unfold fetch_audiences.
    apply sends_only_bind; [apply sends_only_print|]. intros _.
    by apply (Hfetch "audiences" "beta/audience/query"). }
  intros _.
  apply sends_only_bind_lift. intros migrate_databases _.
  destruct (truthy migrate_databases); [|apply sends_only_ret].
  apply sends_only_bind; [apply sends_only_print|]. intros _.
  apply sends_only_bind;
    [by apply (Hfetch "connections" "beta/audience/connection")|].
  intros connections.
  apply (sends_only_impl (writes_destination destination base_destination));
    [by right|by apply sync_connections_sends_destination].
Qed.

(** The requests of a computation followed by another are those of the
    first followed by those of the second, if it runs. *)
Lemma requests_of_bind {A B} (P : request → Prop) (Q : list request → Prop)
    (m : io A) (k : A → io B) :
  sends_only P m →
  (∀ a script, Q (requests_of (trace_of (k a script)))) →
  Q [] →
  ∀ script, ∃ l1 l2,
    requests_of (trace_of (bind m k script)) = l1 ++ l2
    ∧ Forall P l1 ∧ Q l2.
Proof.
  intros Hm Hk Hnil script. specialize (Hm script). unfold bind.
  destruct (m script) as [[[a| e |] u] t].
  - rewrite trace_of_after, requests_of_app. eauto.
  - exists (requests_of t), []. by rewrite app_nil_r.
  - exists (requests_of t), []. by rewrite app_nil_r.
Qed.

Lemma requests_of_bind_lift {A B} (Q : list request → Prop) (m : exn + A)
    (k : A → io B) :
  (∀ a script, Q (requests_of (trace_of (k a script)))) →
  Q [] →
  ∀ script, Q (requests_of (trace_of (bind (lift m) k script))).
Proof.
  intros Hk Hnil script. rewrite bind_lift. destruct m; [done|apply Hk].
Qed.

Lemma requests_of_bind_then {A B} (P : request → Prop)
    (Q R : list request → Prop) (m : io A) (k : A → io B) :
  sends_only P m →
  (∀ a script, Q (requests_of (trace_of (k a script)))) →
  Q [] →
  (∀ l1 l2, Forall P l1 → Q l2 → R (l1 ++ l2)) →
  ∀ script, R (requests_of (trace_of (bind m k script))).
Proof.
  intros Hm Hk Hnil HR script.
  destruct (requests_of_bind P Q m k Hm Hk Hnil script) as (l1 & l2 & -> & ? & ?).
  by apply HR.
Qed.

(** X15: the flows run one after the other, in the order templates,
    audiences, databases, whatever the configuration and the replies are:
    the requests of [main] are those of the templates flow, followed by
    those of the audiences flow, followed by those of the databases
    flow. *)
Theorem main_runs_flows_in_order config script :
  in_flow_order (requests_of (trace_of (main config script))).
Proof.
  revert script. unfold main.
  assert (in_flow_order []) as Hnil.
  { exists [], [], []. by repeat split. }
  apply (requests_of_bind_lift in_flow_order); [|done]. intros _.
  apply (requests_of_bind_lift in_flow_order); [|done]. intros migrate_config.
  apply (requests_of_bind_lift in_flow_order); [|done]. intros migrate_templates.
  apply (requests_of_bind_then (of_flow "templates")
           (λ l, ∃ a d, l = a ++ d ∧ Forall (of_flow "audiences") a
                        ∧ Forall (of_flow "databases") d)).
  - destruct (truthy migrate_templates); [|apply sends_only_ret].
    apply sends_only_bind; [apply sends_only_print|]. intros _.
    apply sends_only_bind; [|intros; apply for_template_in_sends_only].
    apply fetch_paginated_data_sends_only. by intros ? ? ? ? [= <-].
  - intros _.
    apply (requests_of_bind_lift
             (λ l, ∃ a d, l = a ++ d ∧ Forall (of_flow "audiences") a
                          ∧ Forall (of_flow "databases") d));
      [|by exists [], []].
    intros migrate_audiences.
    apply (requests_of_bind_then (of_flow "audiences")
             (Forall (of_flow "databases"))
             (λ l, ∃ a d, l = a ++ d ∧ Forall (of_flow "audiences") a
                          ∧ Forall (of_flow "databases") d)).
    + destruct (truthy migrate_audiences); [|apply sends_only_ret].
      apply sends_only_bind; [apply sends_only_print|]. intros _.
      apply sends_only_bind; [|intros; apply for_audience_in_sends_only].
      unfold fetch_audiences.
      apply sends_only_bind; [apply sends_only_print|]. intros _.
      apply fetch_paginated_data_sends_only. by intros ? ? ? ? [= <-].
    + intros _.
      apply (requests_of_bind_lift (Forall (of_flow "databases"))); [|done].
      intros migrate_databases.
      change (sends_only (of_flow "databases")
                (if truthy migrate_databases
                 then print [Lit "Fetching connections..."];;
                      do connections <-
                        fetch_paginated_data config "connections" VNone;
                      sync_connections connections config
                 else ret tt)).
      destruct (truthy migrate_databases); [|apply sends_only_ret].
      apply sends_only_bind; [apply sends_only_print|]. intros _.
      apply sends_only_bind; [|intros; apply sync_connections_sends_only].
      apply fetch_paginated_data_sends_only. by intros ? ? ? ? [= <-].
    + done.
    + intros a d Ha Hd. by exists a, d.
  - by exists [], [].
  - intros t l Ht (a & d & -> & Ha & Hd). by exists t, a, d.
Qed.


Lemma complete_config_validates c :
  complete_config c → validate_config (VDict c) = inr tt.
Proof. apply validate_sections_complete. Qed.

Lemma migrate_config_of_get c m :
  migrate_config_of c = Some m →
  py_get (VDict c) "migrating" (VDict ∅) = inr (VDict m).
Proof.
  unfold migrate_config_of. cbn [py_get].
  destruct (c !! "migrating") as [[| | | | |m']|]; try done; by intros [= <-].
Qed.

Lemma trace_of_bind_prefix {A B} (m : io A) (k : A → io B) script :
  ∃ t, trace_of (bind m k script) = trace_of (m script) ++ t.
Proof.
  unfold bind. destruct (m script) as [[[a| e |] u] t].
  - rewrite trace_of_after. eauto.
  - exists []. by rewrite app_nil_r.
  - exists []. by rewrite app_nil_r.
Qed.

Lemma created_listing url headers params size first n :
  created (listing_requests url headers params size first n) = [].
Proof.
  unfold created. rewrite requests_of_listing.
  induction (seqZ first (Z.of_nat n)) as [|i l IH]; [done|].
  rewrite fmap_cons. unfold listing_request at 1.
  by rewrite filter_cons_False.
Qed.

Lemma created_audiences destination base audiences names :
  Forall2 (λ audience name, py_getitem audience "name" = inr name)
    audiences names →
  ∀ replies,
    length replies = length audiences →
    created (concat (zip_with (λ '(audience, name),
                                 audience_events destination base audience name)
                       (zip audiences names) replies))
    = audiences.
Proof.
  induction 1 as [|audience name audiences names Hname _ IH];
    intros [|reply replies] Hlen; try done.
  cbn [zip zip_with concat]. rewrite created_app. unfold audience_events at 1.
  cbn [app]. rewrite created_printed. unfold create_request.
  rewrite created_post, created_app, created_complaint. cbn [app].
  rewrite created_printed. cbn [created requests_of omap filter fmap app].
  rewrite IH by (simpl in Hlen; lia). done.
Qed.

Lemma requests_of_audiences destination base audiences names :
  Forall2 (λ audience name, py_getitem audience "name" = inr name)
    audiences names →
  ∀ replies,
    length replies = length audiences →
    length (requests_of (concat (zip_with
              (λ '(audience, name),
                 audience_events destination base audience name)
              (zip audiences names) replies)))
    = length audiences.
Proof.
  induction 1 as [|audience name audiences names Hname _ IH];
    intros [|reply replies] Hlen; try done.
  cbn [zip zip_with concat]. rewrite requests_of_app, length_app.
  rewrite IH by (simpl in Hlen; lia). unfold audience_events. cbn [app].
  rewrite requests_of_printed, requests_of_sent, requests_of_app.
  by rewrite requests_of_complaint.
Qed.

Lemma fetch_paginated_data_pages config endpoint params source base suffix vs
    contents v final rest :
  config_section config "source" source →
  source !! "url" = Some base →
  ENDPOINTS !! endpoint = Some suffix →
  usable_params params →
  Forall2 (λ v c, loose_page v c false) vs contents →
  loose_page v final true →
  fetch_paginated_data config endpoint params
    ((ReturnsJson <$> vs) ++ ReturnsJson v :: rest)
  = (Return (concat contents ++ final), rest,
     listing_requests [Fmt base; Lit suffix] (section_headers source) params
       (page_size params) 0 (S (length vs))).
Proof.
  intros Hs Hu He Hp Hvs Hv.
  rewrite (fetch_paginated_data_after_pages _ _ _ _ _ _ _ _ _ Hs Hu He Hp Hvs).
  rewrite (fetch_pages_loose_page _ _ _ _ _ _ _ _ _ _ _ Hp Hv).
  rewrite after_after. cbn [after].
  replace (1 + Z.of_nat (length vs) - 1)%Z
    with (0 + Z.of_nat (length vs))%Z by lia.
  by rewrite app_nil_r, listing_requests_snoc.
Qed.

(** X16: the audiences flow from end to end.  On a complete configuration
    in which only the [audiences] flag is truthy, with listing replies that
    are pages up to a last one, audiences that have a [name], and one reply
    per audience, [main] returns normally, has read exactly those replies,
    and has sent one create request per listed audience, with the listed
    record as its body, in the order of the listing, whatever the replies
    to the create requests were. *)
Theorem main_migrates_listed_audiences c m source destination base_source
    base_destination vs contents v final names replies rest :
  complete_config c →
  c !! "source" = Some (VDict source) →
  source !! "url" = Some base_source →
  c !! "destination" = Some (VDict destination) →
  destination !! "url" = Some base_destination →
  migrate_config_of c = Some m →
  flag_value m "templates" = false →
  flag_value m "audiences" = true →
  flag_value m "databases" = false →
  Forall2 (λ v c, loose_page v c false) vs contents →
  loose_page v final true →
  Forall2 (λ audience name, py_getitem audience "name" = inr name)
    (concat contents ++ final) names →
  length replies = length (concat contents ++ final) →
  ∃ tr,
    main (VDict c)
      ((ReturnsJson <$> vs) ++ ReturnsJson v :: replies ++ rest)
    = (Return tt, rest, tr)
    ∧ created tr = concat contents ++ final
    ∧ length (requests_of tr)
      = (S (length vs) + length (concat contents ++ final))%nat.
Proof.
  intros Hcomplete Hs Hus Hd Hud Hm Ht Ha Hdb Hvs Hv Hnames Hlen.
  assert (config_section (VDict c) "source" source) as Hsrc by (by exists c).
  assert (config_section (VDict c) "destination" destination) as Hdst
    by (by exists c).
  unfold main.
  rewrite (complete_config_validates _ Hcomplete), bind_lift_inr.
  rewrite (migrate_config_of_get _ _ Hm), bind_lift_inr.
  cbn [py_get]. rewrite bind_lift_inr.
  unfold flag_value in Ht, Ha, Hdb. rewrite Ht, bind_ret, bind_lift_inr, Ha.
  rewrite bind_bind, bind_print. unfold fetch_audiences.
  rewrite !bind_bind, bind_print.
  rewrite (bind_run _ _ _ _ _ _
             (fetch_paginated_data_pages _ "audiences" VNone _ _
                "beta/audience/query" _ _ _ _ _ Hsrc Hus eq_refl
                (or_introl eq_refl) Hvs Hv)).
  rewrite (bind_run _ _ _ _ _ _
             (for_audience_in_run _ _ _ Hdst Hud _ _ _ _ Hnames Hlen)).
  rewrite bind_lift_inr, Hdb. unfold ret. cbn [after].
  rewrite app_nil_r. cbn [app].
  eexists. split; [reflexivity|]. split.
  - rewrite !created_printed, created_app, created_listing.
    by rewrite (created_audiences _ _ _ _ Hnames _ Hlen).
  - rewrite !requests_of_printed, requests_of_app, requests_of_listing.
    rewrite length_app, length_fmap, length_seqZ, Nat2Z.id.
    by rewrite (requests_of_audiences _ _ _ _ Hnames _ Hlen).
Qed.

(** X17: a flag is tested for truth, not compared with [true]: on a
    complete configuration whose [templates] flag has any truthy value, the
    string "false" included, [main] starts the templates flow: it prints
    that it fetches templates and asks the source for page 0 of the
    templates, with size 100. *)
Theorem main_starts_flow_of_truthy_flag c m source base flag script :
  complete_config c →
  c !! "source" = Some (VDict source) →
  source !! "url" = Some base →
  migrate_config_of c = Some m →
  m !! "templates" = Some flag →
  truthy flag = true →
  ∃ t,
    trace_of (main (VDict c) script)
    = Printed [Lit "Fetching templates..."]
      :: Sent (listing_request [Fmt base; Lit "beta/template"]
                 (section_headers source) VNone (VInt 100) 0)
      :: t.
Proof.
  intros Hcomplete Hs Hu Hm Hflag Ht.
  assert (config_section (VDict c) "source" source) as Hsrc by (by exists c).
  unfold main.
  rewrite (complete_config_validates _ Hcomplete), bind_lift_inr.
  rewrite (migrate_config_of_get _ _ Hm), bind_lift_inr.
  cbn [py_get]. rewrite bind_lift_inr, Hflag. cbn [default from_option id].
  rewrite Ht.
  rewrite bind_bind, bind_print, trace_of_after, bind_bind.
  match goal with
  | |- context [trace_of (bind ?fetch ?rest script)] =>
      destruct (trace_of_bind_prefix fetch rest script) as [t' ->]
  end.
  rewrite (fetch_paginated_data_loop _ "templates" VNone _ _ "beta/template"
             _ Hsrc Hu eq_refl (or_introl eq_refl)).
  destruct (fetch_pages_asks (length script) [Fmt base; Lit "beta/template"]
              (section_headers source) VNone (page_size VNone) 1 [] script
              (or_introl eq_refl)) as (o & u & t & ->).
  by exists (t ++ t').
Qed.

(** X18: on a complete configuration in which no flag is truthy, in
    particular without a [migrating] section, [main] returns normally
    without sending a request, printing a line or reading a reply. *)
Theorem main_without_flags_does_nothing c m script :
  complete_config c →
  migrate_config_of c = Some m →
  flag_value m "templates" = false →
  flag_value m "audiences" = false →
  flag_value m "databases" = false →
  main (VDict c) script = (Return tt, script, []).
Proof.
  intros Hcomplete Hm Ht Ha Hd. unfold main.
  rewrite (complete_config_validates _ Hcomplete), bind_lift_inr.
  rewrite (migrate_config_of_get _ _ Hm), bind_lift_inr.
  cbn [py_get]. unfold flag_value in Ht, Ha, Hd.
  rewrite bind_lift_inr, Ht, bind_ret.
  rewrite bind_lift_inr, Ha, bind_ret.
  by rewrite bind_lift_inr, Hd.
Qed.

(** X19: the [migrating] section is read with [get] without a check of
    its type: on a complete configuration whose [migrating] entry is no
    mapping (a boolean, a list, a string), [main] raises [AttributeError]
    after the validation and before any flow. *)
Theorem main_rejects_migrating_of_wrong_type c v script :
  complete_config c →
  c !! "migrating" = Some v →
  (∀ m, v ≠ VDict m) →
  main (VDict c) script = (Raise AttributeError, script, []).
Proof.
  intros Hcomplete Hc Hv. unfold main.
  rewrite (complete_config_validates _ Hcomplete), bind_lift_inr.
  cbn [py_get]. rewrite Hc. cbn [default from_option id].
  rewrite bind_lift_inr.
  assert (py_get v "templates" (VBool false) = inl AttributeError) as ->.
  { destruct v; try done. by destruct (Hv d). }
  by rewrite bind_lift_inl.
Qed.


(** X20: a creation counts as failed whenever the decoded reply is falsy:
    when the destination answers a create request with an empty body
    ([null], an empty object), without any transport or decoding error,
    [create_template] still prints that it failed to create the template
    and returns [None], and [create_audience] does the same for a record
    that has a name. *)
Theorem creation_with_empty_reply_reported_failed config destination base body
    script :
  config_section config "destination" destination →
  destination !! "url" = Some base →
  truthy body = false →
  (∀ template_data,
     create_template config template_data (ReturnsJson body :: script)
     = (Return VNone, script,
        [Sent (create_request destination base "beta/template" template_data);
         Printed [Lit "Failed to create template."]]))
  ∧ (∀ audience_data name,
       py_getitem audience_data "name" = inr name →
       create_audience config audience_data (ReturnsJson body :: script)
       = (Return VNone, script,
          [Sent (create_request destination base "beta/audience/query"
                   audience_data);
           Printed [Lit "Failed to create audience '"; Fmt name; Lit "': ";
                    Fmt body]])).
Proof.
  intros Hs Hu Hbody. split.
  - intros template_data.
    rewrite (create_template_run _ _ _ _ _ _ Hs Hu). cbn [received complaint].
    unfold template_report. by rewrite Hbody.
  - intros audience_data name Hname.
    rewrite (create_audience_run _ _ _ _ _ _ _ Hs Hu Hname).
    cbn [received complaint]. unfold audience_report. by rewrite Hbody.
Qed.

End Migrator.

(** ** The properties on the example data

    The order in which a set of names is enumerated is taken to be that of
    [elements]. *)

Lemma elements_order : ∀ X : gset string, elements X ≡ₚ elements X.
Proof. reflexivity. Defined.

(** Two pages of audiences, A on the first and B on the last. *)
Lemma fetch_paginated_data_concatenates_example :
  ∃ tr,
    fetch_paginated_data elements example_config "audiences" VNone
      ((ReturnsJson <$> [example_page [example_audience "A"] false])
       ++ ReturnsJson (example_page [example_audience "B"] true) :: [])
    = (Return (concat [[example_audience "A"]] ++ [example_audience "B"]), [], tr)
    ∧ length tr = 2%nat
    ∧ ∀ i, (i ≤ 1)%nat →
        ∃ r q, tr !! i = Some (Sent r)
               ∧ req_method r = "GET"
               ∧ req_url r = [Fmt (VStr "https://source.example/");
                              Lit "beta/audience/query"]
               ∧ req_params r = VDict q
               ∧ q !! "page" = Some (VInt (Z.of_nat i)).
Proof.
  apply (fetch_paginated_data_concatenates elements example_config "audiences"
           VNone example_source (VStr "https://source.example/")
           "beta/audience/query" [example_page [example_audience "A"] false]
           [[example_audience "A"]] (example_page [example_audience "B"] true)
           [example_audience "B"] []).
  - example_section.
  - computed.
  - computed.
  - left. reflexivity.
  - exact I.
  - constructor; [example_is_page | constructor].
  - example_is_page.
Defined.

(** One page of audiences, then a request that fails. *)
Lemma fetch_paginated_data_partial_example :
  ∃ tr,
    fetch_paginated_data elements example_config "audiences" VNone
      ((ReturnsJson <$> [example_page [example_audience "A"] false])
       ++ RaisesRequestException "503 Server Error" :: [])
    = (Return (concat [[example_audience "A"]]), [], tr)
    ∧ length (requests_of tr) = 2%nat.
Proof.
  apply (fetch_paginated_data_partial elements example_config "audiences"
           VNone example_source (VStr "https://source.example/")
           "beta/audience/query" [example_page [example_audience "A"] false]
           [[example_audience "A"]] (RaisesRequestException "503 Server Error")
           []).
  - example_section.
  - computed.
  - computed.
  - left. reflexivity.
  - constructor; [example_is_page | constructor].
  - reflexivity.
Defined.

(** A first page with no content that is not the last: page 1 is asked
    for. *)
Lemma page_boundary_is_last_flag_example :
  ∃ o unread tr,
    fetch_paginated_data elements example_config "audiences" VNone
      ((ReturnsJson <$> []) ++ ReturnsJson (example_page [] false) :: [])
    = (o, unread, tr)
    ∧ (length (requests_of tr) = 1%nat ↔ false = true)
    ∧ (false = true → o = Return (concat [] ++ []) ∧ unread = [])
    ∧ (false = false →
       ∃ r q, requests_of tr !! 1%nat = Some r
              ∧ req_method r = "GET"
              ∧ req_url r = [Fmt (VStr "https://source.example/");
                             Lit "beta/audience/query"]
              ∧ req_params r = VDict q
              ∧ q !! "page" = Some (VInt (Z.of_nat 1))).
Proof.
  apply (page_boundary_is_last_flag elements example_config "audiences" VNone
           example_source (VStr "https://source.example/")
           "beta/audience/query" [] [] (example_page [] false) [] false []).
  - example_section.
  - computed.
  - computed.
  - left. reflexivity.
  - exact I.
  - constructor.
  - example_is_page.
Defined.

Lemma example_connections_named : Forall named example_connections.
Proof. repeat constructor; by eexists. Qed.

Lemma example_locals_named : Forall named example_locals.
Proof. repeat constructor; by eexists. Qed.

Lemma example_databases : configured_databases example_config example_locals.
Proof. example_section. Qed.

(** Source connections A, B, C (and b again) against local connections b,
    c, d: payloads for b and c. *)
Lemma sync_connections_merges_common_example :
  ∃ tr,
    sync_connections elements example_connections example_config
      ([example_created; RaisesRequestException "500 Server Error"] ++ [])
    = (Return tt, [], tr)
    ∧ created tr
      ≡ₚ merged_payload example_connections example_locals
         <$> elements (common_names example_connections example_locals)
    ∧ (∀ name, name ∈ common_names example_connections example_locals →
        ∃ s c p,
          last_named name example_connections = Some (VDict s)
          ∧ last_named name example_locals = Some (VDict c)
          ∧ merged_payload example_connections example_locals name = VDict p
          ∧ ∀ key, p !! key = if decide (key ∈ secret_fields)
                              then Some (default VNone (c !! key))
                              else s !! key)
    ∧ ∀ v, v ∈ created tr →
        ∃ name, name ∈ common_names example_connections example_locals
                ∧ record_name v = Some name.
Proof.
  apply (sync_connections_merges_common elements elements_order
           example_connections example_config example_destination
           (VStr "https://destination.example/") example_locals).
  - example_section.
  - computed.
  - exact example_databases.
  - exact example_connections_named.
  - exact example_locals_named.
  - computed.
Defined.

(** The payloads of that run: c with the port [None] that the local record
    lacks, b from the second source record of that name. *)
Example sync_connections_example_payloads :
  created (trace_of (sync_connections elements example_connections
                       example_config
                       [example_created; RaisesRequestException "500 Server Error"]))
  = [ VDict {[ "name" := VStr "C"; "type" := VStr "mysql";
               "host" := VStr "c.local"; "port" := VNone;
               "user" := VStr "carol"; "password" := VStr "c-secret" ]};
      VDict {[ "name" := VStr "b"; "type" := VStr "oracle";
               "host" := VStr "b.local"; "port" := VInt 5432;
               "user" := VStr "bob"; "password" := VStr "b-secret" ]} ].
Proof. computed. Qed.

(** The local connection c has no port. *)
Lemma sync_connections_missing_secret_example :
  ∃ tr p,
    sync_connections elements example_connections example_config
      ([example_created; example_created] ++ [])
    = (Return tt, [], tr)
    ∧ merged_payload example_connections example_locals "c" = VDict p
    ∧ VDict p ∈ created tr
    ∧ p !! "port" = Some VNone.
Proof.
  apply (sync_connections_missing_secret elements elements_order
           example_connections example_config example_destination
           (VStr "https://destination.example/") example_locals
           [example_created; example_created] [] "c"
           {[ "name" := VStr "c"; "host" := VStr "c.local";
              "user" := VStr "carol"; "password" := VStr "c-secret" ]}
           "port").
  - example_section.
  - computed.
  - exact example_databases.
  - exact example_connections_named.
  - exact example_locals_named.
  - computed.
  - computed.
  - computed.
  - right. left.
  - computed.
Defined.

(** The source has two connections that go by the name b. *)
Lemma sync_connections_last_wins_example :
  ∃ tr,
    sync_connections elements example_connections example_config
      ([example_created; example_created] ++ [])
    = (Return tt, [], tr)
    ∧ (∀ name, name ∈ common_names example_connections example_locals →
         ∃ s c before after before' after',
           example_connections = before ++ VDict s :: after
           ∧ record_name (VDict s) = Some name
           ∧ Forall (λ w, record_name w ≠ Some name) after
           ∧ example_locals = before' ++ VDict c :: after'
           ∧ record_name (VDict c) = Some name
           ∧ Forall (λ w, record_name w ≠ Some name) after'
           ∧ VDict (overlay s c) ∈ created tr)
    ∧ ∀ name,
        (length (filter (λ v, record_name v = Some name) (created tr)) ≤ 1)%nat.
Proof.
  apply (sync_connections_last_wins elements elements_order
           example_connections example_config example_destination
           (VStr "https://destination.example/") example_locals).
  - example_section.
  - computed.
  - exact example_databases.
  - exact example_connections_named.
  - exact example_locals_named.
  - computed.
Defined.

(** The destination section has no [ApiKey]. *)
Lemma main_rejects_incomplete_config_example :
  ∃ e,
    validate_config (VDict example_incomplete) = inl e
    ∧ (sections_are_mappings example_incomplete → ∃ what, e = KeyError what)
    ∧ ∀ script,
        main elements (VDict example_incomplete) script = (Raise e, script, [])
        ∧ requests_of (trace_of (main elements (VDict example_incomplete) script))
          = [].
Proof.
  apply (main_rejects_incomplete_config elements example_incomplete).
  right. left. right.
  exists (delete "ApiKey" example_destination),
         ["url"; "ApiKey"; "CustomerId"], "ApiKey".
  split; [computed|]. split; [computed|]. split; [|computed].
  right. left.
Defined.

Example example_incomplete_sections : sections_are_mappings example_incomplete.
Proof.
  repeat constructor; intros v Hv; vm_compute in Hv;
    injection Hv as <-; by eexists.
Qed.

Example incomplete_config_message :
  validate_config (VDict example_incomplete)
  = inl (KeyError "Missing 'ApiKey' in 'destination' section.").
Proof. computed. Qed.

Lemma example_templates_ids :
  Forall2 (λ template template_id, py_getitem template "id" = inr template_id)
    [example_template 1; example_template 2; example_template 3]
    [VInt 1; VInt 2; VInt 3].
Proof. repeat constructor. Qed.

(** Three templates of which the second one's detail request fails: two
    create requests, for the first and the third. *)
Lemma templates_flow_creates_truthy_details_example :
  ∃ tr,
    for_template_in example_config
      [example_template 1; example_template 2; example_template 3]
      (concat (template_replies
               <$> [(ReturnsJson (example_detail 1), example_created);
                    (RaisesRequestException "404 Not Found", example_created);
                    (ReturnsJson (example_detail 3), example_created)])
       ++ [])
    = (Return tt, [], tr)
    ∧ tr = concat (zip_with (template_events example_source example_destination
                               (VStr "https://source.example/")
                               (VStr "https://destination.example/"))
                     [VInt 1; VInt 2; VInt 3]
                     [(ReturnsJson (example_detail 1), example_created);
                      (RaisesRequestException "404 Not Found", example_created);
                      (ReturnsJson (example_detail 3), example_created)])
    ∧ created tr
      = filter (λ v, truthy v = true)
          ((λ step, received step.1)
           <$> [(ReturnsJson (example_detail 1), example_created);
                (RaisesRequestException "404 Not Found", example_created);
                (ReturnsJson (example_detail 3), example_created)])
    ∧ ∀ template_id step,
        (failed step.1 →
         ∃ notice,
           failure_notice notice = true
           ∧ template_events example_source example_destination
               (VStr "https://source.example/")
               (VStr "https://destination.example/") template_id step
             = [Printed [Lit "Migrating Template ID: "; Fmt template_id];
                Sent (detail_request example_source
                        (VStr "https://source.example/") template_id);
                Printed notice])
        ∧ (∀ body, step.1 = ReturnsJson body → truthy body = false →
           template_events example_source example_destination
             (VStr "https://source.example/")
             (VStr "https://destination.example/") template_id step
           = [Printed [Lit "Migrating Template ID: "; Fmt template_id];
              Sent (detail_request example_source
                      (VStr "https://source.example/") template_id)]).
Proof.
  apply (templates_flow_creates_truthy_details example_config example_source
           example_destination (VStr "https://source.example/")
           (VStr "https://destination.example/")
           [example_template 1; example_template 2; example_template 3]
           [VInt 1; VInt 2; VInt 3]).
  - example_section.
  - computed.
  - example_section.
  - computed.
  - exact example_templates_ids.
  - reflexivity.
Defined.

Example templates_flow_example_created :
  created (trace_of (for_template_in example_config
                       [example_template 1; example_template 2;
                        example_template 3]
                       [ReturnsJson (example_detail 1); example_created;
                        RaisesRequestException "404 Not Found";
                        ReturnsJson (example_detail 3); example_created]))
  = [example_detail 1; example_detail 3].
Proof. computed. Qed.

(** The detail request for the second of three templates is answered with
    the JSON body [null]: [fetch_content] returns [None], two create
    requests are sent, for the first and the third template, and none of
    the printed lines is a failure notice. *)
Lemma templates_flow_absent_detail_unreported :
  fetch_content example_config (VInt 2)
    [ReturnsJson VNone; ReturnsJson (example_detail 3); example_created]
  = (Return VNone, [ReturnsJson (example_detail 3); example_created],
     [Sent (detail_request example_source (VStr "https://source.example/")
              (VInt 2))])
  ∧ ∃ tr,
      for_template_in example_config
        [example_template 1; example_template 2; example_template 3]
        [ReturnsJson (example_detail 1); example_created;
         ReturnsJson VNone;
         ReturnsJson (example_detail 3); example_created]
      = (Return tt, [], tr)
      ∧ created tr = [example_detail 1; example_detail 3]
      ∧ lines_of tr
        = [[Lit "Migrating Template ID: "; Fmt (VInt 1)];
           [Lit "Template created successfully."];
           [Lit "Migrating Template ID: "; Fmt (VInt 2)];
           [Lit "Migrating Template ID: "; Fmt (VInt 3)];
           [Lit "Template created successfully."]]
      ∧ ¬ ∃ notice, notice ∈ lines_of tr ∧ failure_notice notice = true.
Proof.
  split; [computed|]. eexists. split; [computed|].
  split; [computed|]. split; [computed|].
  intros (notice & Hin & Hnotice). vm_compute in Hin.
  repeat (apply elem_of_cons in Hin as [->|Hin]; [by vm_compute in Hnotice|]).
  by apply elem_of_nil in Hin.
Qed.

(** The per-record operations and the loops on the example
    configuration. *)
Lemma record_failures_do_not_abort_example :
  (∀ template_id reply script,
     ∃ tr,
       fetch_content example_config template_id (reply :: script)
       = (Return (received reply), script, tr)
       ∧ (failed reply →
          ∃ notice, failure_notice notice = true ∧ Printed notice ∈ tr))
  ∧ (∀ template_data reply script,
       ∃ response tr,
         create_template example_config template_data (reply :: script)
         = (Return response, script, tr)
         ∧ (truthy (received reply) = false →
            response = VNone
            ∧ ∃ notice, failure_notice notice = true ∧ Printed notice ∈ tr))
  ∧ (∀ audience_data name reply script,
       py_getitem audience_data "name" = inr name →
       ∃ response tr,
         create_audience example_config audience_data (reply :: script)
         = (Return response, script, tr)
         ∧ (truthy (received reply) = false →
            response = VNone
            ∧ ∃ notice, failure_notice notice = true ∧ Printed notice ∈ tr))
  ∧ (∀ templates ids steps rest,
       Forall2 (λ template template_id,
                  py_getitem template "id" = inr template_id) templates ids →
       length steps = length templates →
       for_template_in example_config templates
         (concat (template_replies <$> steps) ++ rest)
       = (Return tt, rest,
          concat (zip_with (template_events example_source example_destination
                              (VStr "https://source.example/")
                              (VStr "https://destination.example/"))
                    ids steps)))
  ∧ (∀ audiences names replies rest,
       Forall2 (λ audience name, py_getitem audience "name" = inr name)
         audiences names →
       length replies = length audiences →
       ∃ tr,
         for_audience_in example_config audiences (replies ++ rest)
         = (Return tt, rest, tr)
         ∧ tr = concat (zip_with (λ '(audience, name),
                                    audience_events example_destination
                                      (VStr "https://destination.example/")
                                      audience name)
                          (zip audiences names) replies)
         ∧ created tr = audiences)
  ∧ (∀ db_payload locals replies rest,
       configured_databases example_config locals →
       Forall named db_payload →
       Forall named locals →
       length replies = size (common_names db_payload locals) →
       ∃ tr,
         sync_connections elements db_payload example_config (replies ++ rest)
         = (Return tt, rest, tr)
         ∧ tr = concat (zip_with
                          (connection_events
                             (section_headers example_destination)
                             [Fmt (VStr "https://destination.example/");
                              Lit "beta/audience/connection"]
                             (merged_payload db_payload locals))
                          (elements (common_names db_payload locals))
                          replies)
         ∧ length (created tr) = size (common_names db_payload locals)).
Proof.
  apply (record_failures_do_not_abort elements elements_order example_config
           example_source example_destination
           (VStr "https://source.example/")
           (VStr "https://destination.example/")).
  - example_section.
  - computed.
  - example_section.
  - computed.
Defined.

(** Two audiences of which the creation of the first fails: both are
    visited, and the failure is reported. *)
Example audiences_flow_example :
  for_audience_in example_config [example_audience "A"; example_audience "B"]
    [RaisesRequestException "500 Server Error"; example_created]
  = (Return tt, [],
     [Printed [Lit "Migrating Audience: "; Fmt (VStr "A")];
      Sent (create_request example_destination
              (VStr "https://destination.example/") "beta/audience/query"
              (example_audience "A"));
      Printed [Lit "HTTP error: "; Fmt (VStr "500 Server Error")];
      Printed [Lit "Failed to create audience '"; Fmt (VStr "A"); Lit "': ";
               Fmt VNone];
      Printed [Lit "Migrating Audience: "; Fmt (VStr "B")];
      Sent (create_request example_destination
              (VStr "https://destination.example/") "beta/audience/query"
              (example_audience "B"));
      Printed [Lit "Audience '"; Fmt (VStr "B"); Lit "' created successfully."]]).
Proof. computed. Qed.

(** Without a [migrating] section, [main] sends nothing, whatever the
    remote systems would reply. *)
Lemma main_requests_only_for_set_flags_example :
  Forall (λ r, ∃ flag, flow_flag r = Some flag ∧ flag_set example_unflagged flag)
    (requests_of (trace_of (main elements example_unflagged [example_created])))
  ∧ (∀ flag, ¬ flag_set example_unflagged flag →
       Forall (λ r, flow_flag r ≠ Some flag)
         (requests_of (trace_of (main elements example_unflagged
                                   [example_created]))))
  ∧ ((∀ c, example_unflagged = VDict c → c !! "migrating" = None) →
     requests_of (trace_of (main elements example_unflagged [example_created]))
     = []).
Proof.
  exact (main_requests_only_for_set_flags elements example_unflagged
           [example_created]).
Defined.

(** On the example configuration the templates flag is set and the
    audiences flag is not: [main] sends the requests of the templates flow
    and no other. *)
Example main_example_flows :
  req_url <$> requests_of (trace_of (main elements example_config
    [ReturnsJson (example_page [example_template 7] true);
     ReturnsJson (example_detail 7); example_created;
     ReturnsJson (example_page [example_audience "A"] true)]))
  = [[Fmt (VStr "https://source.example/"); Lit "beta/template"];
     [Fmt (VStr "https://source.example/"); Lit "beta/template"; Lit "/";
      Fmt (VInt 7)];
     [Fmt (VStr "https://destination.example/"); Lit "beta/template"]].
Proof. computed. Qed.

(** The helpers on concrete values. *)
Example lower_example : lower "Prod-DB 2" = "prod-db 2".
Proof. reflexivity. Qed.

Example validate_config_example : validate_config example_config = inr tt.
Proof. computed. Qed.

Example validate_config_not_a_mapping :
  validate_config (VList [VStr "source"; VStr "destination"]) = inl TypeError.
Proof. computed. Qed.

Example fetch_paginated_data_awaits :
  fetch_paginated_data elements example_config "audiences" VNone
    [ReturnsJson (example_page [example_audience "A"] false)]
  = (Awaiting, [],
     listing_requests
       [Fmt (VStr "https://source.example/"); Lit "beta/audience/query"]
       (section_headers example_source) VNone (VInt 100) 0 2).
Proof. computed. Qed.

(** ** The further properties on the example data *)

Ltac example_loose_page :=
  eexists; split; [reflexivity | split; [computed | split; computed]].

(** The requests of a pagination of two pages. *)
Example listing_requests_of_example :
  req_params
  <$> requests_of (trace_of (fetch_paginated_data elements example_config
                               "audiences" VNone
                               [ReturnsJson (example_page [] false);
                                ReturnsJson (example_page [] true)]))
  = [VDict {[ "page" := VInt 0; "size" := VInt 100 ]};
     VDict {[ "page" := VInt 1; "size" := VInt 100 ]}].
Proof. computed. Qed.

(** Extra parameters that ask for page 3 and size 10. *)
Lemma fetch_paginated_data_page_overridden_example :
  Forall (λ r, ∃ q, req_params r = VDict q ∧ q !! "page" = Some (VInt 3))
    (requests_of (trace_of (fetch_paginated_data elements example_config
                              "audiences"
                              (VDict {[ "page" := VInt 3; "size" := VInt 10 ]})
                              [ReturnsJson (example_page [] false);
                               ReturnsJson (example_page [] true)]))).
Proof.
  apply (fetch_paginated_data_page_overridden elements example_config
           "audiences" {[ "page" := VInt 3; "size" := VInt 10 ]} (VInt 3)).
  computed.
Defined.

(** A page without [last], then a page without [content] whose [last] is
    the number 1. *)
Lemma fetch_paginated_data_reads_pages_loosely_example :
  fetch_paginated_data elements example_config "audiences" VNone
    ((ReturnsJson <$> [VDict {[ "content" := VList [example_audience "A"] ]}])
     ++ ReturnsJson (VDict {[ "last" := VInt 1 ]}) :: [example_created])
  = (Return (concat [[example_audience "A"]] ++ []), [example_created],
     listing_requests
       [Fmt (VStr "https://source.example/"); Lit "beta/audience/query"]
       (section_headers example_source) VNone (page_size VNone) 0 2).
Proof.
  apply (fetch_paginated_data_reads_pages_loosely elements example_config
           "audiences" VNone example_source (VStr "https://source.example/")
           "beta/audience/query"
           [VDict {[ "content" := VList [example_audience "A"] ]}]
           [[example_audience "A"]] (VDict {[ "last" := VInt 1 ]}) []
           [example_created]).
  - example_section.
  - computed.
  - computed.
  - left. reflexivity.
  - constructor; [example_loose_page | constructor].
  - example_loose_page.
Defined.

(** Two pages, neither of which is the last. *)
Lemma fetch_paginated_data_never_gives_up_example :
  fetch_paginated_data elements example_config "audiences" VNone
    (ReturnsJson <$> [example_page [example_audience "A"] false;
                      example_page [] false])
  = (Awaiting, [],
     listing_requests
       [Fmt (VStr "https://source.example/"); Lit "beta/audience/query"]
       (section_headers example_source) VNone (page_size VNone) 0 3).
Proof.
  apply (fetch_paginated_data_never_gives_up elements example_config
           "audiences" VNone example_source (VStr "https://source.example/")
           "beta/audience/query"
           [example_page [example_audience "A"] false; example_page [] false]
           [[example_audience "A"]; []]).
  - example_section.
  - computed.
  - computed.
  - left. reflexivity.
  - constructor; [example_loose_page|].
    constructor; [example_loose_page | constructor].
Defined.

(** After one page, a reply that is an array, and a reply whose content is
    [null]. *)
Lemma fetch_paginated_data_malformed_reply_example :
  fetch_paginated_data elements example_config "audiences" VNone
    ((ReturnsJson <$> [example_page [example_audience "A"] false])
     ++ ReturnsJson (VList [example_audience "B"]) :: [])
  = (Raise AttributeError, [],
     listing_requests
       [Fmt (VStr "https://source.example/"); Lit "beta/audience/query"]
       (section_headers example_source) VNone (page_size VNone) 0 2)
  ∧ fetch_paginated_data elements example_config "audiences" VNone
      ((ReturnsJson <$> [example_page [example_audience "A"] false])
       ++ ReturnsJson (VDict {[ "content" := VNone; "last" := VBool true ]})
          :: [])
    = (Raise TypeError, [],
       listing_requests
         [Fmt (VStr "https://source.example/"); Lit "beta/audience/query"]
         (section_headers example_source) VNone (page_size VNone) 0 2).
Proof.
  split.
  - apply (fetch_paginated_data_malformed_reply elements example_config
             "audiences" VNone example_source (VStr "https://source.example/")
             "beta/audience/query"
             [example_page [example_audience "A"] false]
             [[example_audience "A"]] (VList [example_audience "B"]) []).
    + example_section.
    + computed.
    + computed.
    + left. reflexivity.
    + constructor; [example_loose_page | constructor].
    + reflexivity.
    + intros d. discriminate.
  - eapply (fetch_paginated_data_malformed_reply elements example_config
              "audiences" VNone example_source (VStr "https://source.example/")
              "beta/audience/query"
              [example_page [example_audience "A"] false]
              [[example_audience "A"]]
              (VDict {[ "content" := VNone; "last" := VBool true ]}) []).
    + example_section.
    + computed.
    + computed.
    + left. reflexivity.
    + constructor; [example_loose_page | constructor].
    + reflexivity.
    + computed.
    + left. reflexivity.
Defined.

(** An endpoint key that [ENDPOINTS] does not have. *)
Lemma fetch_paginated_data_missing_key_example :
  fetch_paginated_data elements (VDict example_plain) "segments" VNone
    [example_created]
  = (Raise (KeyError "segments"), [example_created], []).
Proof.
  eapply (fetch_paginated_data_missing_key elements example_plain "segments"
            VNone [example_created]); computed.
Defined.

Lemma example_complete_sections : sections_are_mappings example_complete.
Proof.
  repeat constructor; intros v Hv; vm_compute in Hv;
    injection Hv as <-; by eexists.
Defined.

Lemma validate_config_accepts_complete_example :
  validate_config (VDict example_complete) = inr tt
  ↔ complete_config example_complete.
Proof.
  apply (validate_config_accepts_complete example_complete).
  exact example_complete_sections.
Defined.

Lemma validate_config_accepts_listed_sections_example :
  validate_config (VDict example_listed) = inr tt
  ∧ ∀ endpoint params script,
      fetch_paginated_data elements (VDict example_listed) endpoint params
        script
      = (Raise TypeError, script, []).
Proof.
  apply (validate_config_accepts_listed_sections elements example_listed
           [VStr "url"; VStr "ApiKey"; VStr "CustomerId"]
           [VStr "url"; VStr "ApiKey"; VStr "CustomerId"]).
  - computed.
  - computed.
  - repeat constructor.
Defined.

Lemma example_ini_lower :
  ∀ section options option,
    example_ini !! section = Some options →
    is_Some (options !! option) →
    lower option = option.
Proof.
  assert (map_Forall (λ (_ : string) (options : gmap string string),
                        map_Forall (λ (option _ : string),
                                      lower option = option) options)
            example_ini) as Hall.
  { apply (bool_decide_unpack _). vm_compute. exact I. }
  intros section options option Hs [x Ho]. exact (Hall _ _ Hs _ _ Ho).
Defined.

(** A complete INI file, as [configparser] hands it over. *)
Lemma load_ini_never_validates_example :
  ∃ what,
    validate_config (load_ini example_ini) = inl (KeyError what)
    ∧ ∀ script,
        main elements (load_ini example_ini) script
        = (Raise (KeyError what), script, []).
Proof.
  apply (load_ini_never_validates elements example_ini).
  exact example_ini_lower.
Defined.

Example load_ini_example_message :
  validate_config (load_ini example_ini)
  = inl (KeyError "Missing 'ApiKey' in 'source' section.").
Proof. computed. Qed.

(** A source record without a name after a named one, although b is
    common. *)
Lemma sync_connections_unnamed_record_example :
  sync_connections elements
    ([VDict {[ "name" := VStr "B" ]}] ++ VDict {[ "type" := VStr "mysql" ]} :: [])
    (VDict example_complete) [example_created]
  = (Raise (KeyError "name"), [example_created], [])
  ∧ ∀ db_payload,
      Forall named db_payload →
      example_complete !! "databases"
      = Some (VList ([VDict {[ "name" := VStr "B" ]}]
                     ++ VDict {[ "type" := VStr "mysql" ]} :: [])) →
      sync_connections elements db_payload (VDict example_complete)
        [example_created]
      = (Raise (KeyError "name"), [example_created], []).
Proof.
  apply (sync_connections_unnamed_record elements example_complete
           [VDict {[ "name" := VStr "B" ]}] (VDict {[ "type" := VStr "mysql" ]})
           [] (KeyError "name") [example_created]).
  - repeat constructor. by eexists.
  - computed.
Defined.

(** No source connection at all. *)
Lemma sync_connections_nothing_common_example :
  sync_connections elements [] example_config [example_created]
  = (Return tt, [example_created], []).
Proof.
  apply (sync_connections_nothing_common elements elements_order []
           example_config example_destination
           (VStr "https://destination.example/") example_locals).
  - example_section.
  - computed.
  - exact example_databases.
  - constructor.
  - exact example_locals_named.
  - computed.
Defined.

(** An audience record with an id and no name. *)
Lemma create_audience_unnamed_record_example :
  create_audience example_config (VDict {[ "id" := VInt 7 ]})
    (example_created :: [])
  = (Raise (KeyError "name"), [],
     Sent (create_request example_destination
             (VStr "https://destination.example/") "beta/audience/query"
             (VDict {[ "id" := VInt 7 ]}))
     :: complaint example_created).
Proof.
  apply (create_audience_unnamed_record example_config example_destination
           (VStr "https://destination.example/") {[ "id" := VInt 7 ]}).
  - example_section.
  - computed.
  - computed.
Defined.

(** Three templates of which the second has no id: the first is migrated,
    the third is not looked at. *)
Lemma main_loops_stop_at_malformed_record_example :
  for_template_in example_config
    ([example_template 1] ++ example_audience "A" :: [example_template 3])
    (concat (template_replies
             <$> [(ReturnsJson (example_detail 1), example_created)])
     ++ [ReturnsJson (example_detail 3)])
  = (Raise (KeyError "id"), [ReturnsJson (example_detail 3)],
     concat (zip_with (template_events example_source example_destination
                         (VStr "https://source.example/")
                         (VStr "https://destination.example/"))
               [VInt 1]
               [(ReturnsJson (example_detail 1), example_created)])).
Proof.
  apply (main_loops_stop_at_malformed_record example_config example_source
           example_destination (VStr "https://source.example/")
           (VStr "https://destination.example/")).
  - example_section.
  - computed.
  - example_section.
  - computed.
  - repeat constructor.
  - reflexivity.
  - computed.
Defined.

(** A run of the templates flow on the example configuration. *)
Lemma main_keeps_systems_apart_example :
  Forall (λ r, reads_source example_source (VStr "https://source.example/") r
               ∨ writes_destination example_destination
                   (VStr "https://destination.example/") r)
    (requests_of (trace_of (main elements example_config
       [ReturnsJson (example_page [example_template 7] true);
        ReturnsJson (example_detail 7); example_created]))).
Proof.
  apply (main_keeps_systems_apart elements example_config example_source
           example_destination (VStr "https://source.example/")
           (VStr "https://destination.example/")).
  - example_section.
  - computed.
  - example_section.
  - computed.
Defined.

(** Two pages of audiences, then a creation that succeeds and one that
    fails; the flag is the string "false". *)
Lemma main_migrates_listed_audiences_example :
  ∃ tr,
    main elements (VDict example_complete)
      ((ReturnsJson <$> [example_page [example_audience "A"] false])
       ++ ReturnsJson (example_page [example_audience "B"] true)
          :: [example_created; RaisesRequestException "500 Server Error"]
             ++ [])
    = (Return tt, [], tr)
    ∧ created tr = concat [[example_audience "A"]] ++ [example_audience "B"]
    ∧ length (requests_of tr)
      = (2 + length (concat [[example_audience "A"]]
                     ++ [example_audience "B"]))%nat.
Proof.
  apply (main_migrates_listed_audiences elements example_complete
           {[ "audiences" := VStr "false" ]} example_source example_destination
           (VStr "https://source.example/")
           (VStr "https://destination.example/")
           [example_page [example_audience "A"] false]
           [[example_audience "A"]] (example_page [example_audience "B"] true)
           [example_audience "B"] [VStr "A"; VStr "B"]).
  - apply validate_sections_ok; [example_mappings | computed].
  - computed.
  - computed.
  - computed.
  - computed.
  - computed.
  - computed.
  - computed.
  - computed.
  - constructor; [example_loose_page | constructor].
  - example_loose_page.
  - repeat constructor.
  - reflexivity.
Defined.

(** The templates flag is the string "false". *)
Lemma main_starts_flow_of_truthy_flag_example :
  ∃ t,
    trace_of (main elements (VDict example_templates_flag) [])
    = Printed [Lit "Fetching templates..."]
      :: Sent (listing_request
                 [Fmt (VStr "https://source.example/"); Lit "beta/template"]
                 (section_headers example_source) VNone (VInt 100) 0)
      :: t.
Proof.
  apply (main_starts_flow_of_truthy_flag elements example_templates_flag
           {[ "templates" := VStr "false" ]} example_source
           (VStr "https://source.example/") (VStr "false")).
  - apply validate_sections_ok; [example_mappings | computed].
  - computed.
  - computed.
  - computed.
  - computed.
  - reflexivity.
Defined.

Lemma example_plain_complete : complete_config example_plain.
Proof. apply validate_sections_ok; [example_mappings | computed]. Defined.

Lemma main_without_flags_does_nothing_example :
  main elements (VDict example_plain) [example_created]
  = (Return tt, [example_created], []).
Proof.
  apply (main_without_flags_does_nothing elements example_plain ∅).
  - exact example_plain_complete.
  - computed.
  - computed.
  - computed.
  - computed.
Defined.

Lemma main_rejects_migrating_of_wrong_type_example :
  main elements (VDict example_migrating_true) [example_created]
  = (Raise AttributeError, [example_created], []).
Proof.
  apply (main_rejects_migrating_of_wrong_type elements example_migrating_true
           (VBool true)).
  - apply validate_sections_ok; [example_mappings | computed].
  - computed.
  - intros m. discriminate.
Defined.

(** A create request answered with an empty object. *)
Lemma creation_with_empty_reply_reported_failed_example :
  (∀ template_data,
     create_template example_config template_data (ReturnsJson (VDict ∅) :: [])
     = (Return VNone, [],
        [Sent (create_request example_destination
                 (VStr "https://destination.example/") "beta/template"
                 template_data);
         Printed [Lit "Failed to create template."]]))
  ∧ (∀ audience_data name,
       py_getitem audience_data "name" = inr name →
       create_audience example_config audience_data
         (ReturnsJson (VDict ∅) :: [])
       = (Return VNone, [],
          [Sent (create_request example_destination
                   (VStr "https://destination.example/") "beta/audience/query"
                   audience_data);
           Printed [Lit "Failed to create audience '"; Fmt name; Lit "': ";
                    Fmt (VDict ∅)]])).
Proof.
  apply (creation_with_empty_reply_reported_failed example_config
           example_destination (VStr "https://destination.example/")
           (VDict ∅) []).
  - example_section.
  - computed.
  - reflexivity.
Defined.
